(** * ChiTownScrub: the field validation and rejection engine

    A shallow embedding of the scrubbing notebook [ChiTownScrub.ipynb]:
    the regular expressions of [MY_REGX], the two phases
    [process_hard_rejects] and [process_soft_rejects], and the driver cell
    that chains them with the reject analysis.

    Text is modelled on the ASCII range: a character is a Stdlib [ascii],
    the digits are '0'..'9' and the letters are 'a'..'z' and 'A'..'Z'. *)

From Stdlib Require Import Ascii String.
From stdpp Require Import gmap strings list pretty.

Open Scope string_scope.
Open Scope list_scope.

(** ** Characters and the string methods the rules use *)

Module Chars.

Definition code (c : ascii) : N := N_of_ascii c.

Definition between (lo hi : N) (c : ascii) : bool :=
  ((lo <=? code c) && (code c <=? hi))%N.

Definition is_digit : ascii -> bool := between 48 57.
Definition is_lower : ascii -> bool := between 97 122.
Definition is_upper : ascii -> bool := between 65 90.
Definition is_alpha (c : ascii) : bool := is_lower c || is_upper c.

Definition to_lower (c : ascii) : ascii :=
  if is_upper c then ascii_of_N (code c + 32) else c.
Definition to_upper (c : ascii) : ascii :=
  if is_lower c then ascii_of_N (code c - 32) else c.

(** Equality with a given character, and its case-insensitive form under
    [re.I]. *)
Definition is_char (a c : ascii) : bool := (code a =? code c)%N.
Definition is_char_i (a c : ascii) : bool := is_char (to_lower a) (to_lower c).

Definition one_of (l : list ascii) (c : ascii) : bool :=
  existsb (fun a => is_char a c) l.

End Chars.

Module Str.

Fixpoint all (p : ascii -> bool) (s : string) : bool :=
  match s with
  | EmptyString => true
  | String c s' => p c && all p s'
  end.

(** [str.isdigit()]: every character is a digit and there is at least one. *)
Definition isdigit (s : string) : bool :=
  match s with
  | EmptyString => false
  | _ => all Chars.is_digit s
  end.

(** [s[0:2]], as [Series.str.slice(0, 2)] takes it. *)
Definition slice (start stop : nat) (s : string) : string :=
  substring start (stop - start) s.

Fixpoint map (f : ascii -> ascii) (s : string) : string :=
  match s with
  | EmptyString => EmptyString
  | String c s' => String (f c) (map f s')
  end.

Definition lower : string -> string := map Chars.to_lower.
Definition upper : string -> string := map Chars.to_upper.

(** [str.title()]: a letter that follows a letter is lowered, any other
    letter is raised. *)
Fixpoint title_from (previous_is_cased : bool) (s : string) : string :=
  match s with
  | EmptyString => EmptyString
  | String c s' =>
      String (if previous_is_cased then Chars.to_lower c else Chars.to_upper c)
             (title_from (Chars.is_alpha c) s')
  end.

Definition title : string -> string := title_from false.

End Str.

(** ** Regular expressions

    The fragment of Python's [re] that [MY_REGX] is written in, with a
    backtracking matcher that tries alternatives left to right and
    repetitions greedily, and records the text of the capture groups. *)

Module Re.

Inductive regex : Type :=
| Eps
| Class (p : ascii -> bool)
| Seq (r1 r2 : regex)
| Alt (r1 r2 : regex)
| Rep (lo : nat) (hi : option nat) (r : regex)
| Group (n : nat) (r : regex)
| Bol
| Eol.

Definition captures : Type := gmap nat string.

(** A continuation receives the position reached, the text that is left and
    the groups captured so far. *)
Definition cont : Type := nat -> string -> captures -> option captures.

(** [$] matches at the end of the text and just before a final newline. *)
Definition at_end (s : string) : bool :=
  match s with
  | EmptyString => true
  | String c EmptyString => Chars.is_char "010" c
  | _ => false
  end.

(** The bodies repeated in [MY_REGX] all consume a character, so an
    unbounded repetition runs at most once per remaining character. *)
Fixpoint run (r : regex) (i : nat) (s : string) (g : captures) (k : cont)
  : option captures :=
  match r with
  | Eps => k i s g
  | Class p =>
      match s with
      | String c s' => if p c then k (S i) s' g else None
      | EmptyString => None
      end
  | Seq r1 r2 => run r1 i s g (fun i' s' g' => run r2 i' s' g' k)
  | Alt r1 r2 =>
      match run r1 i s g k with
      | Some g' => Some g'
      | None => run r2 i s g k
      end
  | Rep lo hi r' =>
      (fix loop (n lo : nat) (i : nat) (s : string) (g : captures) {struct n}
         : option captures :=
         match n with
         | O => match lo with O => k i s g | S _ => None end
         | S n' =>
             match run r' i s g (fun i' s' g' => loop n' (pred lo) i' s' g') with
             | Some g' => Some g'
             | None => match lo with O => k i s g | S _ => None end
             end
         end)
        (match hi with Some h => h | None => lo + String.length s end) lo i s g
  | Group n r' =>
      run r' i s g (fun i' s' g' => k i' s' (<[n := substring 0 (i' - i) s]> g'))
  | Bol => match i with O => k i s g | S _ => None end
  | Eol => if at_end s then k i s g else None
  end.

(** [pattern.match(s)]: a match that starts at the first character; the
    text after the match is free. *)
Definition match_ (r : regex) (s : string) : option captures :=
  run r 0 s ∅ (fun _ _ g => Some g).

Definition matches (r : regex) (s : string) : bool :=
  bool_decide (is_Some (match_ r s)).

(** Abbreviations for the pattern syntax. *)
Fixpoint cat (rs : list regex) : regex :=
  match rs with
  | [] => Eps
  | [r] => r
  | r :: rs' => Seq r (cat rs')
  end.

Definition lit (a : ascii) : regex := Class (Chars.is_char a).
Definition lit_i (a : ascii) : regex := Class (Chars.is_char_i a).
Definition opt (r : regex) : regex := Rep 0 (Some 1) r.
Definition plus (r : regex) : regex := Rep 1 None r.
Definition times (lo hi : nat) (r : regex) : regex := Rep lo (Some hi) r.
Definition exactly (n : nat) (r : regex) : regex := Rep n (Some n) r.
Definition digit : regex := Class Chars.is_digit.

End Re.

(** ** The patterns of [MY_REGX] *)

Module MY_REGX.
Import Re.

(** Character sets under [re.I]: letters of either case. *)
Definition letters_and (extra : list ascii) (digits : bool) (c : ascii) : bool :=
  Chars.is_alpha c || (digits && Chars.is_digit c) || Chars.one_of extra c.

(** [^[a-z]{2}$], [re.I] *)
Definition TWO_LETTERS : regex :=
  cat [Bol; exactly 2 (Class (letters_and [] false)); Eol].

(** [^(\d{1,4}X{1,4}) ((?:[a-z\d] ?){1,20}){1,5}$], [re.I] *)
Definition BLOCK : regex :=
  cat [Bol;
       Group 1 (cat [times 1 4 digit; times 1 4 (lit_i "X")]);
       lit " ";
       times 1 5
         (Group 2 (times 1 20 (cat [Class (letters_and [] true); opt (lit " ")])));
       Eol].

(** [^[a-z\d]{4}$], [re.I] *)
Definition IUCR : regex :=
  cat [Bol; exactly 4 (Class (letters_and [] true)); Eol].

(** [^(?:[a-z\-]{1,20}(?: |$)){1,5}$], [re.I] *)
Definition PRIMARY_TYPE : regex :=
  cat [Bol;
       times 1 5 (cat [times 1 20 (Class (letters_and ["-"%char] false));
                       Alt (lit " ") Eol]);
       Eol].

(** [^(?:[a-z\-\/\:\,\.\(\)\d\$}]{1,25}(?: |$)){1,7}$], [re.I] *)
Definition DESCRIPTION : regex :=
  cat [Bol;
       times 1 7
         (cat [times 1 25
                 (Class (letters_and
                           ["-"; "/"; ":"; ","; "."; "("; ")"; "$"; "}"]%char true));
               Alt (lit " ") Eol]);
       Eol].

(** [^(?:[a-z\-\/\.\,\(\)]{1,20}(?: |$)){1,7}$], [re.I] *)
Definition LOCATION_DESCRIPTION : regex :=
  cat [Bol;
       times 1 7
         (cat [times 1 20
                 (Class (letters_and ["-"; "/"; "."; ","; "("; ")"]%char false));
               Alt (lit " ") Eol]);
       Eol].

(** [-?\d+\.\d+] *)
Definition decimal : regex :=
  cat [opt (lit "-"); plus digit; lit "."; plus digit].

(** [^\((-?\d+\.\d+), ?(-?\d+\.\d+)\)$] *)
Definition LOCATION : regex :=
  cat [Bol; lit "("; Group 1 decimal; lit ","; opt (lit " ");
       Group 2 decimal; lit ")"; Eol].

(** [^\d{5}|\d{4}$]: the alternation binds weaker than the anchors, so the
    first branch is anchored at the start only and the second at the end
    only. *)
Definition ZIP_CODES : regex :=
  Alt (cat [Bol; exactly 5 digit]) (cat [exactly 4 digit; Eol]).

End MY_REGX.

(** ** Tables

    A table is the ordered list of its rows; a row carries its index label
    and maps column names to cells.  A cell that is present holds a string,
    a timestamp, or null (NaN, None, NaT); a column the table does not have
    is a name the rows do not map. *)

Record Timestamp : Type := {
  year : N; month : N; day : N; hour : N; minute : N; second : N
}.

Inductive value : Type :=
| Str (s : string)
| Date (d : Timestamp).

#[global] Instance Timestamp_eq_dec : EqDecision Timestamp.
Proof. solve_decision. Defined.

#[global] Instance value_eq_dec : EqDecision value.
Proof. solve_decision. Defined.

Abbreviation cell := (option value).
Abbreviation Series := (list cell).
Abbreviation Row := (gmap string cell).
Abbreviation DataFrame := (list (nat * Row)).

Definition index (df : DataFrame) : list nat := df.*1.

(** [df[name]]: fails (KeyError) when the table has no such column. *)
Definition column (df : DataFrame) (name : string) : option Series :=
  mapM (fun r : nat * Row => r.2 !! name) df.

(** [df[name] = values]: fails when the row counts differ. *)
Definition set_column (df : DataFrame) (name : string) (values : Series)
  : option DataFrame :=
  if decide (length values = length df)
  then Some (zip_with (fun (r : nat * Row) v => (r.1, <[name := v]> r.2)) df values)
  else None.

(** [df.drop(columns=name)] *)
Definition drop_column (df : DataFrame) (name : string) : DataFrame :=
  (fun r : nat * Row => (r.1, delete name r.2)) <$> df.

(** [df.loc[~df.index.isin(ids)]] *)
Definition drop_index (ids : gset nat) (df : DataFrame) : DataFrame :=
  filter (fun r : nat * Row => r.1 ∉ ids) df.

(** ** Series methods *)

Module Pd.

(** Elementwise string methods give NaN on null and on a value that is no
    string. *)
Definition on_str {A} (f : string -> A) (c : cell) : option A :=
  match c with
  | Some (Str s) => Some (f s)
  | _ => None
  end.

Definition str_isdigit (series : Series) : list (option bool) :=
  on_str Str.isdigit <$> series.

Definition str_slice (start stop : nat) (series : Series) : Series :=
  (fun c => Str <$> on_str (Str.slice start stop) c) <$> series.

Definition str_match (r : Re.regex) (na : option bool) (series : Series)
  : list (option bool) :=
  (fun c => match on_str (Re.matches r) c with Some b => Some b | None => na end)
    <$> series.

Definition str_len (series : Series) : list (option nat) :=
  on_str String.length <$> series.

Definition str_title (series : Series) : Series :=
  (fun c => Str <$> on_str Str.title c) <$> series.

Definition str_upper (series : Series) : Series :=
  (fun c => Str <$> on_str Str.upper c) <$> series.

(** [lengths.le(n)] and [lengths.eq(n)]: a comparison with NaN is False. *)
Definition le (n : nat) (lengths : list (option nat)) : list (option bool) :=
  (fun l => Some (match l with Some m => bool_decide (m <= n) | None => false end))
    <$> lengths.

Definition eq (n : nat) (lengths : list (option nat)) : list (option bool) :=
  (fun l => Some (match l with Some m => bool_decide (m = n) | None => false end))
    <$> lengths.

(** [a & b] on boolean series; NaN counts as False. *)
Definition and (a b : list (option bool)) : list (option bool) :=
  zip_with (fun x y => Some (default false x && default false y)) a b.

(** ['0' + zips] *)
Definition prepend (prefix : string) (series : Series) : Series :=
  (fun c => Str <$> on_str (String.append prefix) c) <$> series.

(** [np.select(condlist, choicelist, default)] over [n] rows: the choice of
    the first condition that holds. *)
Fixpoint np_select (n : nat) (condlist : list (list (option bool)))
    (choicelist : list Series) (otherwise : cell) : Series :=
  match condlist, choicelist with
  | cond :: condlist', choice :: choicelist' =>
      zip_with (fun (bx : option bool * cell) rest =>
                  if default false bx.1 then bx.2 else rest)
               (zip cond choice) (np_select n condlist' choicelist' otherwise)
  | _, _ => replicate n otherwise
  end.

(** [series.str.extract(pattern, expand=True)] for a pattern with two
    groups: the two columns of group texts, null where there is no match
    or the group took no part in it. *)
Definition extract1 (r : Re.regex) (c : cell) : cell * cell :=
  match c with
  | Some (Str s) =>
      match Re.match_ r s with
      | Some g => (Str <$> g !! 1, Str <$> g !! 2)
      | None => (None, None)
      end
  | _ => (None, None)
  end.

Definition str_extract (r : Re.regex) (series : Series) : list (cell * cell) :=
  extract1 r <$> series.

(** [series.replace(other_nulls, np.nan)] *)
Definition replace_with_nan (nulls : list string) (series : Series) : Series :=
  (fun c => match c with
            | Some (Str s) => if decide (s ∈ nulls) then None else c
            | _ => c
            end) <$> series.

(** A numeric series is of integers, or of floats once it has to hold NaN. *)
Inductive numbers : Type :=
| Int64 (l : list N)
| Float64 (l : list (option N)).

(** [dates.dt.year] and [dates.dt.month]: defined on a series of timestamps
    and NaT only. *)
Definition the_date (c : cell) : option (option Timestamp) :=
  match c with
  | None => Some None
  | Some (Date d) => Some (Some d)
  | Some (Str _) => None
  end.

Definition dt (part : Timestamp -> N) (dates : Series) : option numbers :=
  ds ← mapM the_date dates;
  Some (match mapM id ds with
        | Some full => Int64 (part <$> full)
        | None => Float64 (fmap part <$> ds)
        end).

(** [numbers.astype(str)] *)
Definition astype_str (ns : numbers) : Series :=
  match ns with
  | Int64 l => (fun n => Some (Str (pretty n))) <$> l
  | Float64 l =>
      (fun x => Some (Str (match x with
                           | Some n => pretty n +:+ ".0"
                           | None => "nan"
                           end))) <$> l
  end.

End Pd.

(** ** Reject records

    [defaultdict(set)]: column names in the order they were first touched,
    each with its set of row labels. *)

Abbreviation Rejects := (list (string * gset nat)).

(** [rejects[field].update(ids)] *)
Fixpoint rejects_update (field : string) (ids : gset nat) (rejects : Rejects)
  : Rejects :=
  match rejects with
  | [] => [(field, ids)]
  | (f, s) :: rest =>
      if decide (f = field) then (f, s ∪ ids) :: rest
      else (f, s) :: rejects_update field ids rest
  end.

(** [rejects[field]] read without creating the entry. *)
Fixpoint rejects_get (field : string) (rejects : Rejects) : gset nat :=
  match rejects with
  | [] => ∅
  | (f, s) :: rest => if decide (f = field) then s else rejects_get field rest
  end.

(** ** Field rules *)

Inductive Validation : Type :=
| Pattern (r : Re.regex)
| Predicate (f : Series -> list (option bool)).

(** The keyword arguments of [process_field], with their defaults. *)
Record Params : Type := {
  p_validation : option Validation;
  p_valid_values : option (list string);
  p_date_field : bool;
  p_other_nulls : list string;
  p_post_process : list (option string * (Series -> Series));
  p_generated_cols : list (DataFrame -> Series -> option DataFrame);
  p_drop_field : bool
}.

Inductive Kwarg : Type :=
| validation (v : Validation)
| valid_values (l : list string)
| date_field (b : bool)
| other_nulls (l : list string)
| post_process (l : list (option string * (Series -> Series)))
| generated_cols (l : list (DataFrame -> Series -> option DataFrame))
| drop_field (b : bool).

Definition defaults : Params :=
  {| p_validation := None; p_valid_values := None; p_date_field := false;
     p_other_nulls := []; p_post_process := []; p_generated_cols := [];
     p_drop_field := false |}.

Definition set_kwarg (p : Params) (k : Kwarg) : Params :=
  match k with
  | validation v =>
      {| p_validation := Some v; p_valid_values := p_valid_values p;
         p_date_field := p_date_field p; p_other_nulls := p_other_nulls p;
         p_post_process := p_post_process p;
         p_generated_cols := p_generated_cols p; p_drop_field := p_drop_field p |}
  | valid_values l =>
      {| p_validation := p_validation p; p_valid_values := Some l;
         p_date_field := p_date_field p; p_other_nulls := p_other_nulls p;
         p_post_process := p_post_process p;
         p_generated_cols := p_generated_cols p; p_drop_field := p_drop_field p |}
  | date_field b =>
      {| p_validation := p_validation p; p_valid_values := p_valid_values p;
         p_date_field := b; p_other_nulls := p_other_nulls p;
         p_post_process := p_post_process p;
         p_generated_cols := p_generated_cols p; p_drop_field := p_drop_field p |}
  | other_nulls l =>
      {| p_validation := p_validation p; p_valid_values := p_valid_values p;
         p_date_field := p_date_field p; p_other_nulls := l;
         p_post_process := p_post_process p;
         p_generated_cols := p_generated_cols p; p_drop_field := p_drop_field p |}
  | post_process l =>
      {| p_validation := p_validation p; p_valid_values := p_valid_values p;
         p_date_field := p_date_field p; p_other_nulls := p_other_nulls p;
         p_post_process := l;
         p_generated_cols := p_generated_cols p; p_drop_field := p_drop_field p |}
  | generated_cols l =>
      {| p_validation := p_validation p; p_valid_values := p_valid_values p;
         p_date_field := p_date_field p; p_other_nulls := p_other_nulls p;
         p_post_process := p_post_process p;
         p_generated_cols := l; p_drop_field := p_drop_field p |}
  | drop_field b =>
      {| p_validation := p_validation p; p_valid_values := p_valid_values p;
         p_date_field := p_date_field p; p_other_nulls := p_other_nulls p;
         p_post_process := p_post_process p;
         p_generated_cols := p_generated_cols p; p_drop_field := b |}
  end.

(** [**params] *)
Definition kwargs (ks : list Kwarg) : Params := foldl set_kwarg defaults ks.

Definition is_null (c : cell) : bool :=
  match c with None => true | Some _ => false end.

(** [series.where(mask)]: the value where the mask holds, null elsewhere. *)
Definition where_ (mask : list bool) (series : Series) : Series :=
  zip_with (fun (b : bool) (c : cell) => if b then c else None) mask series.

(** The labels of the rows whose mask is false. *)
Definition failing (labels : list nat) (mask : list bool) : gset nat :=
  list_to_set (filter (fun ib : nat * bool => ib.2 = false) (zip labels mask)).*1.


Section Scrub.

(** The date formats [process_field] knows how to read lie outside the
    notebook; the parser is a parameter of the development. *)
Variable parse_date : string -> option Timestamp.

(** [pd.to_datetime(series, errors='coerce')]: what cannot be read becomes
    NaT, a timestamp stays what it is. *)
Definition to_datetime (series : Series) : Series :=
  (fun c => match c with
            | Some (Str s) => Date <$> parse_date s
            | Some (Date d) => Some (Date d)
            | None => None
            end) <$> series.

(** ** The field processor *)

(** Whether each value passes the configured checks, nulls set aside. *)
Definition validate (p : Params) (col : Series) : option (list bool) :=
  let n := length col in
  by_values ←
    match p_valid_values p with
    | Some allowed =>
        Some ((fun c => match c with
                        | Some (Str s) =>
                            bool_decide (Str.lower s ∈ Str.lower <$> allowed)
                        | _ => false
                        end) <$> col)
    | None => Some (replicate n true)
    end;
  by_validation ←
    match p_validation p with
    | Some (Pattern r) =>
        Some ((fun b => bool_decide (b = Some true)) <$> Pd.str_match r None col)
    | Some (Predicate f) =>
        let res := f col in
        if decide (length res = n)
        then Some ((fun b => bool_decide (b = Some true)) <$> res)
        else None
    | None => Some (replicate n true)
    end;
  let by_date :=
    if p_date_field p then (negb ∘ is_null) <$> to_datetime col
    else replicate n true in
  Some (zip_with andb by_values (zip_with andb by_validation by_date)).

(** Post-processing: each transform reads the column as it stands and
    writes the column itself or the new column it names. *)
Fixpoint apply_post (field : string)
    (posts : list (option string * (Series -> Series))) (df : DataFrame)
  : option DataFrame :=
  match posts with
  | [] => Some df
  | (new_col, transform) :: rest =>
      col ← column df field;
      df ← set_column df (default field new_col) (transform col);
      apply_post field rest df
  end.

(** Column generation: each generator receives the table and the column as
    it stands. *)
Fixpoint apply_gens (field : string)
    (gens : list (DataFrame -> Series -> option DataFrame)) (df : DataFrame)
  : option DataFrame :=
  match gens with
  | [] => Some df
  | gen :: rest =>
      col ← column df field;
      df ← gen df col;
      apply_gens field rest df
  end.

(** Modelled from the spec: [data_utils.process_field], which the notebook
    imports and calls but does not define.  The steps are those of the
    field processor's contract: null normalization, validation mask, reject
    bookkeeping, shadow column and nulling for an optional field,
    post-processing, column generation, dropping the source column.  A date
    field is valid where it can be read as a date, and its column holds the
    timestamps from then on.  The calls in the notebook pass the table, the
    column name, the reject record and the rule; [mandatory] is the
    mandatory flag of the contract.  The result is [None] on a fatal error:
    a missing column or a row count that does not fit. *)
Definition process_field (df : DataFrame) (field : string) (rejects : Rejects)
    (mandatory : bool) (p : Params) : option (DataFrame * Rejects) :=
  col ← column df field;
  let col := Pd.replace_with_nan (p_other_nulls p) col in
  valid ← validate p col;
  let mask :=
    zip_with (fun (c : cell) (ok : bool) => if is_null c then negb mandatory else ok)
             col valid in
  let rejects := rejects_update field (failing (index df) mask) rejects in
  let current := if p_date_field p then to_datetime col else col in
  df ← set_column df field current;
  df ← (if mandatory then Some df
        else if forallb id mask then Some df
        else
          df ← set_column df (field +:+ "_orig") (where_ (negb <$> mask) col);
          set_column df field (where_ mask current));
  df ← apply_post field (p_post_process p) df;
  df ← apply_gens field (p_generated_cols p) df;
  Some (if p_drop_field p then drop_column df field else df, rejects).

(** Run the processor over a field list, in order. *)
Fixpoint process_fields (mandatory : bool) (fields : list (string * Params))
    (df : DataFrame) (rejects : Rejects) : option (DataFrame * Rejects) :=
  match fields with
  | [] => Some (df, rejects)
  | (field, params) :: rest =>
      '(df, rejects) ← process_field df field rejects mandatory params;
      process_fields mandatory rest df rejects
  end.

(** ** The hard-reject phase *)

(** [id]: not null, must be digits. *)
Definition id_val (series : Series) : list (option bool) :=
  Pd.str_isdigit series.

(** [case_number]: not null, the first two characters must be letters. *)
Definition case_number_val (series : Series) : list (option bool) :=
  Pd.str_match MY_REGX.TWO_LETTERS None (Pd.str_slice 0 2 series).

(** [date]: not null, readable; the year and the month are extracted. *)
Definition date_yr_mo (df : DataFrame) (dates : Series) : option DataFrame :=
  years ← Pd.dt year dates;
  df ← set_column df "year" (Pd.astype_str years);
  months ← Pd.dt month dates;
  set_column df "month" (Pd.astype_str months).

Definition nonnull_fields : list (string * Params) :=
  [("id", kwargs [validation (Predicate id_val)]);
   ("case_number", kwargs [validation (Predicate case_number_val)]);
   ("date", kwargs [date_field true; other_nulls ["0000-00-00"];
                    generated_cols [date_yr_mo]])].

(** The loop that filters the hard rejects out, one reject set at a time. *)
Definition filter_hard_rejects (df_filt : DataFrame) (hard_rejects : Rejects)
  : DataFrame :=
  foldl (fun (df_filt : DataFrame) (item : string * gset nat) =>
           if decide (0 < size item.2) then drop_index item.2 df_filt
           else df_filt)
        df_filt hard_rejects.

(** [process_hard_rejects(df)]: works on a copy of [df] and returns the
    filtered table with the hard-reject record. *)
Definition process_hard_rejects (df : DataFrame) : option (DataFrame * Rejects) :=
  let df_filt := df in
  let hard_rejects : Rejects := [] in
  '(df_filt, hard_rejects) ← process_fields true nonnull_fields df_filt hard_rejects;
  let df_filt := filter_hard_rejects df_filt hard_rejects in
  Some (df_filt, hard_rejects).

(** ** The soft-reject phase *)

Definition capitalize_first (series : Series) : Series := Pd.str_title series.
Definition upper_case (series : Series) : Series := Pd.str_upper series.

(** The house number and the street are the two groups of [BLOCK]. *)
Definition block_num_addr (df : DataFrame) (blocks : Series) : option DataFrame :=
  let extracted := Pd.str_extract MY_REGX.BLOCK blocks in
  df ← set_column df "house_num" extracted.*1;
  set_column df "street_addr" extracted.*2.

Definition primary_type_post : list (option string * (Series -> Series)) :=
  [(None, capitalize_first)].

(** The pattern and a length of at most 50. *)
Definition description_val (series : Series) : list (option bool) :=
  Pd.and (Pd.str_match MY_REGX.DESCRIPTION (Some false) series)
         (Pd.le 50 (Pd.str_len series)).
Definition description_post : list (option string * (Series -> Series)) :=
  [(None, capitalize_first)].

Definition location_description_val (series : Series) : list (option bool) :=
  Pd.and (Pd.str_match MY_REGX.LOCATION_DESCRIPTION (Some false) series)
         (Pd.le 50 (Pd.str_len series)).
Definition location_description_post : list (option string * (Series -> Series)) :=
  [(None, capitalize_first)].

Definition tf_valid : list string := ["true"; "false"].

Definition valid_int (series : Series) : list (option bool) :=
  Pd.str_isdigit series.

(** The latitude and the longitude are the two groups of [LOCATION]. *)
Definition location_lat_lon (df : DataFrame) (locations : Series)
  : option DataFrame :=
  let extracted := Pd.str_extract MY_REGX.LOCATION locations in
  df ← set_column df "latitude" extracted.*1;
  set_column df "longitude" extracted.*2.

(** Zip codes of length 4 get a ['0'] in front; any length other than 4 and
    5 gives null. *)
Definition zip_to_five (zips : Series) : Series :=
  let condlist := [Pd.eq 4 (Pd.str_len zips); Pd.eq 5 (Pd.str_len zips)] in
  let choicelist := [Pd.prepend "0" zips; zips] in
  Pd.np_select (length zips) condlist choicelist None.

Definition post_zip_codes : list (option string * (Series -> Series)) :=
  [(None, fun series => zip_to_five series)].

Definition nullable_fields : list (string * Params) :=
  [("block", kwargs [validation (Pattern MY_REGX.BLOCK);
                     generated_cols [block_num_addr]]);
   ("iucr", kwargs [validation (Pattern MY_REGX.IUCR)]);
   ("primary_type", kwargs [validation (Pattern MY_REGX.PRIMARY_TYPE);
                            post_process primary_type_post]);
   ("description", kwargs [validation (Predicate description_val);
                           post_process description_post]);
   ("location_description",
      kwargs [validation (Predicate location_description_val);
              post_process location_description_post]);
   ("arrest", kwargs [valid_values tf_valid]);
   ("domestic", kwargs [valid_values tf_valid]);
   ("beat", kwargs [validation (Predicate valid_int)]);
   ("district", kwargs [validation (Predicate valid_int)]);
   ("ward", kwargs [validation (Predicate valid_int)]);
   ("community_area", kwargs [validation (Predicate valid_int)]);
   ("location", kwargs [validation (Pattern MY_REGX.LOCATION);
                        generated_cols [location_lat_lon]; drop_field true]);
   ("zip_codes", kwargs [validation (Pattern MY_REGX.ZIP_CODES);
                         post_process post_zip_codes])].

(** [process_soft_rejects(df_filt)]: the table is modified in place, which
    the state passed through shows; the soft-reject record is returned. *)
Definition process_soft_rejects (df_filt : DataFrame)
  : option (DataFrame * Rejects) :=
  let soft_rejects : Rejects := [] in
  process_fields false nullable_fields df_filt soft_rejects.

(** ** Reject analysis and the reject reports *)

(** All the labels of a reject record, and the columns a label is listed
    under, in the order of the record. *)
Definition all_ids (rejects : Rejects) : gset nat := ⋃ rejects.*2.

Definition cols_of (i : nat) (rejects : Rejects) : list string :=
  (filter (fun item : string * gset nat => i ∈ item.2) rejects).*1.

Definition unique_rejects (rejects : Rejects) : gmap nat (list string) :=
  list_to_map ((fun i => (i, cols_of i rejects)) <$> elements (all_ids rejects)).

(** Modelled from the spec: [data_utils.analyze_hard_and_soft_rejects],
    imported by the notebook.  For each phase: the distinct row labels the
    reject record touches, each with the ordered list of the columns that
    rejected it. *)
Definition analyze_hard_and_soft_rejects (hard_rejects soft_rejects : Rejects)
  : gmap nat (list string) * gmap nat (list string) :=
  (unique_rejects hard_rejects, unique_rejects soft_rejects).

(** A row of a reject report: the row itself under its label, the columns
    that caused the reject and the file it came from. *)
Record RejectRow : Type := {
  file_index : nat;
  fields : Row;
  cols : list string;
  file_name : string
}.

Definition reject_df (table : DataFrame) (unq : gmap nat (list string))
    (file : string) : list RejectRow :=
  omap (fun r : nat * Row =>
          cs ← unq !! r.1;
          Some {| file_index := r.1; fields := r.2; cols := cs; file_name := file |})
       table.

(** Modelled from the spec: [data_utils.generate_reject_dfs], imported by
    the notebook.  The hard-reject report takes its rows from the original
    table, the soft-reject report from the table after the hard filter,
    shadow columns included; a label is reported once, however many columns
    rejected it. *)
Definition generate_reject_dfs (df df_filt : DataFrame) (file : string)
    (hard_rejects : Rejects) (unq_hard_rejects : gmap nat (list string))
    (soft_rejects : Rejects) (unq_soft_rejects : gmap nat (list string))
  : list RejectRow * list RejectRow :=
  (reject_df df unq_hard_rejects file, reject_df df_filt unq_soft_rejects file).

(** ** The cleaning cell *)

(** ['_orig' in col] *)
Fixpoint contains (pat s : string) : bool :=
  String.prefix pat s
  || match s with
     | EmptyString => false
     | String _ s' => contains pat s'
     end.

(** [df_filt[clean_cols]] *)
Definition clean_columns (df_filt : DataFrame) : DataFrame :=
  (fun r : nat * Row =>
     (r.1, filter (fun kv : string * cell => contains "_orig" kv.1 = false) r.2))
    <$> df_filt.

(** The cell that cleans one file: the three tables it writes out. *)
Definition scrub (df : DataFrame) (file : string)
  : option (DataFrame * list RejectRow * list RejectRow) :=
  '(df_filt, hard_rejects) ← process_hard_rejects df;
  '(df_filt, soft_rejects) ← process_soft_rejects df_filt;
  let '(unq_hard_rejects, unq_soft_rejects) :=
    analyze_hard_and_soft_rejects hard_rejects soft_rejects in
  let '(hard_rej_df, soft_rej_df) :=
    generate_reject_dfs df df_filt file hard_rejects unq_hard_rejects
                        soft_rejects unq_soft_rejects in
  Some (clean_columns df_filt, hard_rej_df, soft_rej_df).

End Scrub.

(** ** The tables as objects

    The same two phases over a store of table objects, to tell a table that
    is modified in place from a new one. *)

Module Heap.

Section Objects.

Variable parse_date : string -> option Timestamp.

Abbreviation Store := (gmap nat DataFrame).

(** A new object at an address not in use. *)
Definition alloc (st : Store) (df : DataFrame) : Store * nat :=
  let l := fresh (dom st) in (<[l := df]> st, l).

(** The field processor works on the table it is handed. *)
Definition process_field (st : Store) (df : nat) (field : string)
    (rejects : Rejects) (mandatory : bool) (p : Params)
  : option (Store * Rejects) :=
  table ← st !! df;
  '(table, rejects) ← process_field parse_date table field rejects mandatory p;
  Some (<[df := table]> st, rejects).

Fixpoint process_fields (mandatory : bool) (fields : list (string * Params))
    (st : Store) (df : nat) (rejects : Rejects) : option (Store * Rejects) :=
  match fields with
  | [] => Some (st, rejects)
  | (field, params) :: rest =>
      '(st, rejects) ← process_field st df field rejects mandatory params;
      process_fields mandatory rest st df rejects
  end.

(** [df_filt = df_filt.loc[...]] binds the name to a new table. *)
Fixpoint filter_hard_rejects (st : Store) (df_filt : nat) (hard_rejects : Rejects)
  : option (Store * nat) :=
  match hard_rejects with
  | [] => Some (st, df_filt)
  | (_, ids) :: rest =>
      if decide (0 < size ids) then
        table ← st !! df_filt;
        let '(st, df_filt) := alloc st (drop_index ids table) in
        filter_hard_rejects st df_filt rest
      else filter_hard_rejects st df_filt rest
  end.

Definition process_hard_rejects (st : Store) (df : nat)
  : option (Store * nat * Rejects) :=
  table ← st !! df;
  let '(st, df_filt) := alloc st table in
  let hard_rejects : Rejects := [] in
  '(st, hard_rejects) ← process_fields true nonnull_fields st df_filt hard_rejects;
  '(st, df_filt) ← filter_hard_rejects st df_filt hard_rejects;
  Some (st, df_filt, hard_rejects).

Definition process_soft_rejects (st : Store) (df_filt : nat)
  : option (Store * Rejects) :=
  let soft_rejects : Rejects := [] in
  process_fields false nullable_fields st df_filt soft_rejects.

End Objects.

End Heap.

(** ** Row-level reading of the field processor

    What a rule does to one row, given whether any row of the table failed
    it.  The processor is shown below to act on a table row by row in this
    way whenever the rule is built from elementwise operations. *)

Definition cell_of (name : string) (row : Row) : cell := default None (row !! name).

Definition replace1 (nulls : list string) (c : cell) : cell :=
  match c with
  | Some (Str s) => if decide (s ∈ nulls) then None else c
  | _ => c
  end.

Record Rule : Type := {
  r_nulls : list string;
  r_ok : cell -> bool;
  r_post : list (cell -> cell);
  r_gen : list (list (string * (cell -> cell)));
  r_drop : bool
}.

Definition mask1 (field : string) (e : Rule) (mandatory : bool) (row : Row) : bool :=
  let c := replace1 (r_nulls e) (cell_of field row) in
  if is_null c then negb mandatory else r_ok e c.

Definition write_cols (c : cell) (names : list (string * (cell -> cell)))
    (row : Row) : Row :=
  foldl (fun (row : Row) nh => <[nh.1 := nh.2 c]> row) row names.

Definition row_post (field : string) (posts : list (cell -> cell)) (row : Row) : Row :=
  foldl (fun (row : Row) t => <[field := t (cell_of field row)]> row) row posts.

Definition row_gens (field : string)
    (gens : list (list (string * (cell -> cell)))) (row : Row) : Row :=
  foldl (fun (row : Row) names => write_cols (cell_of field row) names row) row gens.

Definition row_step (field : string) (e : Rule) (mandatory any_failed : bool)
    (row : Row) : Row :=
  let c := replace1 (r_nulls e) (cell_of field row) in
  let m := mask1 field e mandatory row in
  let row1 := <[field := c]> row in
  let row2 :=
    if mandatory || negb any_failed then row1
    else <[field := if m then c else None]>
           (<[field +:+ "_orig" := if m then None else c]> row1) in
  let row3 := row_gens field (r_gen e) (row_post field (r_post e) row2) in
  if r_drop e then delete field row3 else row3.

Definition table_step (field : string) (e : Rule) (mandatory : bool)
    (df : DataFrame) : DataFrame :=
  let any_failed := negb (forallb id ((mask1 field e mandatory ∘ snd) <$> df)) in
  (fun r : nat * Row => (r.1, row_step field e mandatory any_failed r.2)) <$> df.

Definition fails (field : string) (e : Rule) (mandatory : bool) (df : DataFrame)
  : gset nat :=
  failing (index df) ((mask1 field e mandatory ∘ snd) <$> df).

Fixpoint run_rules (mandatory : bool) (rules : list (string * Rule))
    (df : DataFrame) (rejects : Rejects) : DataFrame * Rejects :=
  match rules with
  | [] => (df, rejects)
  | (field, e) :: rest =>
      run_rules mandatory rest (table_step field e mandatory df)
                (rejects_update field (fails field e mandatory df) rejects)
  end.

(** The columns a rule may write. *)
Definition touched (fe : string * Rule) : list string :=
  fe.1 :: (fe.1 +:+ "_orig") :: (concat (r_gen fe.2)).*1.

(** A rule is independent of the others when they write neither its column
    nor its shadow column. *)
Definition apart (fe : string * Rule) (others : list (string * Rule)) : bool :=
  forallb (fun fe' => bool_decide (fe.1 ∉ touched fe')
                      && bool_decide ((fe.1 +:+ "_orig") ∉ touched fe'))
          others.

Fixpoint independent (before rules : list (string * Rule)) : bool :=
  match rules with
  | [] => true
  | fe :: after => apart fe (before ++ after) && independent (before ++ [fe]) after
  end.

Definition has_column (df : DataFrame) (name : string) : Prop :=
  Forall (fun r : nat * Row => is_Some (r.2 !! name)) df.

Definition lacks_column (df : DataFrame) (name : string) : Prop :=
  Forall (fun r : nat * Row => r.2 !! name = None) df.

(** The row-level rules of the two phases. *)

Definition str_ok (f : string -> bool) (c : cell) : bool :=
  match c with Some (Str s) => f s | _ => false end.

Definition check (ok : cell -> bool) : Rule :=
  {| r_nulls := []; r_ok := ok; r_post := []; r_gen := []; r_drop := false |}.

Definition title1 (c : cell) : cell := Str <$> Pd.on_str Str.title c.

Definition zip5 (c : cell) : cell :=
  match c with
  | Some (Str s) =>
      if decide (String.length s = 4) then Some (Str ("0" +:+ s))
      else if decide (String.length s = 5) then Some (Str s)
      else None
  | _ => None
  end.

Definition long_ok (r : Re.regex) (c : cell) : bool :=
  str_ok (fun s => Re.matches r s && bool_decide (String.length s <= 50)) c.

Definition tf_ok (c : cell) : bool :=
  str_ok (fun s => bool_decide (Str.lower s ∈ Str.lower <$> tf_valid)) c.

Definition block_rule : Rule :=
  {| r_nulls := []; r_ok := str_ok (Re.matches MY_REGX.BLOCK); r_post := [];
     r_gen := [[("house_num", fst ∘ Pd.extract1 MY_REGX.BLOCK);
                ("street_addr", snd ∘ Pd.extract1 MY_REGX.BLOCK)]];
     r_drop := false |}.

Definition location_rule : Rule :=
  {| r_nulls := []; r_ok := str_ok (Re.matches MY_REGX.LOCATION); r_post := [];
     r_gen := [[("latitude", fst ∘ Pd.extract1 MY_REGX.LOCATION);
                ("longitude", snd ∘ Pd.extract1 MY_REGX.LOCATION)]];
     r_drop := true |}.

Definition zip_codes_rule : Rule :=
  {| r_nulls := []; r_ok := str_ok (Re.matches MY_REGX.ZIP_CODES);
     r_post := [zip5]; r_gen := []; r_drop := false |}.

Definition soft_rules : list (string * Rule) :=
  [("block", block_rule);
   ("iucr", check (str_ok (Re.matches MY_REGX.IUCR)));
   ("primary_type",
      {| r_nulls := []; r_ok := str_ok (Re.matches MY_REGX.PRIMARY_TYPE);
         r_post := [title1]; r_gen := []; r_drop := false |});
   ("description",
      {| r_nulls := []; r_ok := long_ok MY_REGX.DESCRIPTION;
         r_post := [title1]; r_gen := []; r_drop := false |});
   ("location_description",
      {| r_nulls := []; r_ok := long_ok MY_REGX.LOCATION_DESCRIPTION;
         r_post := [title1]; r_gen := []; r_drop := false |});
   ("arrest", check tf_ok);
   ("domestic", check tf_ok);
   ("beat", check (str_ok Str.isdigit));
   ("district", check (str_ok Str.isdigit));
   ("ward", check (str_ok Str.isdigit));
   ("community_area", check (str_ok Str.isdigit));
   ("location", location_rule);
   ("zip_codes", zip_codes_rule)].

Definition id_ok : cell -> bool := str_ok Str.isdigit.

Definition case_number_ok : cell -> bool :=
  str_ok (fun s => Re.matches MY_REGX.TWO_LETTERS (Str.slice 0 2 s)).


(** The columns the rules of a list may write, one rule at a time, and the
    row-level forms that depend on the date parser. *)

(** Two rows that agree on a rule's column and on one more column still
    agree on both after the rule. *)
Definition agree (field name : string) (row0 row : Row) : Prop :=
  row0 !! field = row !! field /\ row0 !! name = row !! name.

(** The value of the column once the failing values are nulled and the
    transforms applied. *)
Definition final_value (e : Rule) (mandatory any_failed : bool) (c0 : cell) : cell :=
  let c := replace1 (r_nulls e) c0 in
  let m := if is_null c then negb mandatory else r_ok e c in
  let v := if mandatory || negb any_failed then c else if m then c else None in
  foldl (fun v t => t v) v (r_post e).

Definition date_of (c : cell) : option Timestamp :=
  match c with Some (Date d) => Some d | _ => None end.

(** A year or a month as text: a whole number, or a float once the column
    holds a NaT. *)
Definition render (floats : bool) (part : Timestamp -> N) (c : cell) : cell :=
  Some (Str (match date_of c with
             | Some d => if floats then pretty (part d) +:+ ".0" else pretty (part d)
             | None => "nan"
             end)).

Section RowLevel.

Variable parse_date : string -> option Timestamp.

(** A rule built from elementwise operations, and its row-level form. *)
Definition rule_of (p : Params) (e : Rule) : Prop :=
  p_other_nulls p = r_nulls e
  /\ p_date_field p = false
  /\ p_drop_field p = r_drop e
  /\ (forall col, validate parse_date p col = Some (r_ok e <$> col))
  /\ Forall2 (fun (pt : option string * (Series -> Series)) (t : cell -> cell) =>
                pt.1 = None /\ forall s, pt.2 s = t <$> s)
             (p_post_process p) (r_post e)
  /\ Forall2 (fun (gen : DataFrame -> Series -> option DataFrame)
                  (names : list (string * (cell -> cell))) =>
                forall (l : DataFrame) (h : nat * Row -> nat * Row)
                       (g : nat * Row -> cell),
                  gen (h <$> l) (g <$> l)
                  = Some ((fun x => ((h x).1, write_cols (g x) names (h x).2)) <$> l))
             (p_generated_cols p) (r_gen e).

Definition to_datetime1 (c : cell) : cell :=
  match c with
  | Some (Str s) => Date <$> parse_date s
  | Some (Date d) => Some (Date d)
  | None => None
  end.

(** The row-level form of the [date] rule: the zero date counts as null and
    a value passes when it reads as a date. *)
Definition date_rule : Rule :=
  {| r_nulls := ["0000-00-00"]; r_ok := negb ∘ is_null ∘ to_datetime1;
     r_post := []; r_gen := []; r_drop := false |}.

Definition parsed_date (row : Row) : cell :=
  to_datetime1 (replace1 ["0000-00-00"] (cell_of "date" row)).

Definition date_row (floats : bool) (row : Row) : Row :=
  <["month" := render floats month (parsed_date row)]>
    (<["year" := render floats year (parsed_date row)]>
       (<["date" := parsed_date row]> row)).

(** The table once [date] is processed: the timestamps in place of the
    text, and the year and month columns. *)
Definition date_table (df : DataFrame) : DataFrame :=
  let floats := existsb (is_null ∘ (parsed_date ∘ snd)) df in
  (fun r : nat * Row => (r.1, date_row floats r.2)) <$> df.

(** The rules of the mandatory fields, and the reject record they give on a
    table: every set is read off the whole table. *)
Definition hard_rules : list (string * Rule) :=
  [("id", check id_ok); ("case_number", check case_number_ok); ("date", date_rule)].

Definition hard_sets (df : DataFrame) : Rejects :=
  (fun fe : string * Rule => (fe.1, fails fe.1 fe.2 true df)) <$> hard_rules.

End RowLevel.

(** The columns the notebook keeps of the file it loads. *)
Definition keep_cols : list string :=
  ["id"; "case_number"; "date"; "block"; "iucr"; "primary_type"; "description";
   "location_description"; "arrest"; "domestic"; "beat"; "district"; "ward";
   "community_area"; "location"; "zip_codes"].

(** ** A sample date parser

    For the examples below: it reads [MM/DD/YYYY] at the start of the text
    and leaves the time of day at midnight. *)
Definition digit_value (c : ascii) : option N :=
  if Chars.is_digit c then Some (Chars.code c - 48)%N else None.

Definition sample_parse_date (s : string) : option Timestamp :=
  match s with
  | String m1 (String m2 (String "/" (String d1 (String d2 (String "/"
      (String y1 (String y2 (String y3 (String y4 _))))))))) =>
      m1 ← digit_value m1; m2 ← digit_value m2;
      d1 ← digit_value d1; d2 ← digit_value d2;
      y1 ← digit_value y1; y2 ← digit_value y2;
      y3 ← digit_value y3; y4 ← digit_value y4;
      let mo := (10 * m1 + m2)%N in
      let dy := (10 * d1 + d2)%N in
      if bool_decide (1 <= mo <= 12 ∧ 1 <= dy <= 31)%N
      then Some {| year := 1000 * y1 + 100 * y2 + 10 * y3 + y4; month := mo;
                   day := dy; hour := 0; minute := 0; second := 0 |}
      else None
  | _ => None
  end.
(** ** A sample table

    Four rows of a file as the notebook loads it: one that is clean, one
    with a malformed id, one with a malformed case number and the zero
    date, and one whose optional fields fail in several places. *)

Definition example_row (values : list string) : Row :=
  list_to_map (zip keep_cols ((fun s => Some (Str s)) <$> values)).

Definition example_clean_row : Row :=
  example_row ["10000092"; "HY123456"; "03/18/2015 07:44:00 PM"; "047XX W OHIO ST";
               "041A"; "BATTERY"; "AGGRAVATED: HANDGUN"; "STREET"; "false"; "false";
               "1111"; "11"; "28"; "25"; "(41.88, -87.62)"; "6060"].

Definition example_soft_row : Row :=
  example_row ["10000094"; "HY190059"; "03/18/2015 11:00:00 PM"; "066XX S MARSHFIELD AVE";
               "4625"; "OTHER OFFENSE"; "PAROLE VIOLATION"; "STREET"; "True"; "false";
               "0725"; "x7"; "15"; "67"; "(41.77 -87.66)"; "606"].

Definition example_table : DataFrame :=
  [(0, example_clean_row);
   (1, example_row ["1000009a"; "HY189866"; "03/18/2015 02:00:00 PM"; "044XX S PULASKI RD";
                    "0486"; "BATTERY"; "DOMESTIC BATTERY SIMPLE"; "APARTMENT"; "false";
                    "true"; "0822"; "8"; "23"; "56"; "(41.81, -87.72)"; "60601"]);
   (2, example_row ["10000093"; "123456"; "0000-00-00"; "061XX S EBERHART AVE";
                    "0460"; "BATTERY"; "SIMPLE"; "SIDEWALK"; "false"; "false";
                    "0313"; "3"; "20"; "42"; "(41.78, -87.61)"; "606010"]);
   (3, example_soft_row)].

(** * Properties *)

Ltac by_names := apply (bool_decide_unpack _); by vm_compute.

(** ** Columns and series over a table *)

Section Tables.

Context {A : Type}.
Implicit Types (l : list A) (h : A -> nat * Row) (g : A -> cell).

Lemma zip_with_fmap_same {B C D} (f : B -> C -> D) (g1 : A -> B) (g2 : A -> C) l :
  zip_with f (g1 <$> l) (g2 <$> l) = (fun x => f (g1 x) (g2 x)) <$> l.
Proof. induction l as [|x l IH]; csimpl; [done|]. by f_equal. Qed.

Lemma column_fmap l h name g :
  (forall x, x ∈ l -> (h x).2 !! name = Some (g x)) ->
  column (h <$> l) name = Some (g <$> l).
Proof.
  intros Hg. unfold column. apply mapM_Some.
  induction l as [|x l IH]; simpl; constructor.
  - apply Hg. left.
  - apply IH. intros y Hy. apply Hg. by right.
Qed.

Lemma set_column_fmap l h name g :
  set_column (h <$> l) name (g <$> l)
  = Some ((fun x => ((h x).1, <[name := g x]> (h x).2)) <$> l).
Proof.
  unfold set_column. rewrite !length_fmap, decide_True by done.
  f_equal.
  exact (zip_with_fmap_same (fun (r : nat * Row) v => (r.1, <[name := v]> r.2)) h g l).
Qed.

End Tables.

Lemma column_has df name :
  has_column df name -> column df name = Some ((cell_of name ∘ snd) <$> df).
Proof.
  intros H. rewrite <- (list_fmap_id df) at 1. apply column_fmap.
  intros r Hr. unfold has_column in H. rewrite Forall_forall in H.
  destruct (H r Hr) as [c Hc]. simpl. unfold cell_of. by rewrite Hc.
Qed.

Lemma set_column_self (df : DataFrame) name (g : nat * Row -> cell) :
  set_column df name (g <$> df)
  = Some ((fun x => (x.1, <[name := g x]> x.2)) <$> df).
Proof.
  pose proof (set_column_fmap df id name g) as H.
  by rewrite list_fmap_id in H.
Qed.

Lemma column_is_Some df name : is_Some (column df name) <-> has_column df name.
Proof. unfold column, has_column. by rewrite mapM_is_Some. Qed.

Lemma set_column_index df name values df' :
  set_column df name values = Some df' -> index df' = index df.
Proof.
  unfold set_column. case_decide as Hlen; [|done]. intros [= <-].
  unfold index. revert values Hlen.
  induction df as [|r df IH]; intros [|v values] Hlen; simpl in *; try done.
  f_equal. apply IH. lia.
Qed.

Lemma index_fmap_row (f : nat * Row -> Row) (df : DataFrame) :
  index ((fun r => (r.1, f r)) <$> df) = index df.
Proof. unfold index. rewrite <- list_fmap_compose. by apply list_fmap_ext. Qed.

(** ** The field processor acts row by row *)

Section Rows.

Variable parse_date : string -> option Timestamp.


Lemma insert_keeps (row : Row) name name' c :
  is_Some (row !! name) -> is_Some (<[name' := c]> row !! name).
Proof.
  intros H. rewrite lookup_insert_is_Some. destruct (decide (name' = name)); auto.
Qed.

Lemma write_cols_is_Some c names (row : Row) name :
  is_Some (row !! name) -> is_Some (write_cols c names row !! name).
Proof.
  revert row. induction names as [|nh names IH]; intros row H; simpl; [done|].
  apply IH. rewrite lookup_insert_is_Some. destruct (decide (nh.1 = name)); auto.
Qed.

Lemma apply_post_rows field posts ts (l : DataFrame) (h : nat * Row -> nat * Row) :
  Forall2 (fun (pt : option string * (Series -> Series)) (t : cell -> cell) =>
             pt.1 = None /\ forall s, pt.2 s = t <$> s) posts ts ->
  (forall x, x ∈ l -> is_Some ((h x).2 !! field)) ->
  apply_post field posts (h <$> l)
  = Some ((fun x => ((h x).1, row_post field ts (h x).2)) <$> l).
Proof.
  intros HF. revert h.
  induction HF as [|[new transform] t posts ts [Hnew Ht] HF IH]; intros h Hh; simpl.
  - f_equal. apply list_fmap_ext. intros _ x _. by destruct (h x).
  - simpl in Hnew, Ht. subst new.
    rewrite (column_fmap l h field (fun x => cell_of field (h x).2)); last first.
    { intros x Hx. destruct (Hh x Hx) as [c Hc]. unfold cell_of. by rewrite Hc. }
    simpl. rewrite Ht, <- list_fmap_compose, set_column_fmap. simpl.
    rewrite IH; [done|].
    intros x _. simpl. rewrite lookup_insert_is_Some. auto.
Qed.

Lemma apply_gens_rows field gens names (l : DataFrame) (h : nat * Row -> nat * Row) :
  Forall2 (fun (gen : DataFrame -> Series -> option DataFrame)
               (names : list (string * (cell -> cell))) =>
             forall (l : DataFrame) (h : nat * Row -> nat * Row)
                    (g : nat * Row -> cell),
               gen (h <$> l) (g <$> l)
               = Some ((fun x => ((h x).1, write_cols (g x) names (h x).2)) <$> l))
          gens names ->
  (forall x, x ∈ l -> is_Some ((h x).2 !! field)) ->
  apply_gens field gens (h <$> l)
  = Some ((fun x => ((h x).1, row_gens field names (h x).2)) <$> l).
Proof.
  intros HF. revert h.
  induction HF as [|gen ns gens names Hgen HF IH]; intros h Hh; simpl.
  - f_equal. apply list_fmap_ext. intros _ x _. by destruct (h x).
  - rewrite (column_fmap l h field (fun x => cell_of field (h x).2)); last first.
    { intros x Hx. destruct (Hh x Hx) as [c Hc]. unfold cell_of. by rewrite Hc. }
    simpl. rewrite Hgen. simpl.
    rewrite IH; [done|].
    intros x Hx. simpl. apply write_cols_is_Some. auto.
Qed.

Lemma forallb_id_fmap {B} (f : B -> bool) (l : list B) :
  forallb id (f <$> l) = forallb f l.
Proof. induction l as [|x l IH]; csimpl; [done|]. by f_equal. Qed.

Lemma process_field_rows df field rejects mandatory p e :
  rule_of parse_date p e ->
  has_column df field ->
  process_field parse_date df field rejects mandatory p
  = Some (table_step field e mandatory df,
          rejects_update field (fails field e mandatory df) rejects).
Proof.
  intros (Hnulls & Hdate & Hdrop & Hvalid & Hpost & Hgen) Hcol.
  unfold process_field. rewrite (column_has _ _ Hcol). simpl.
  unfold Pd.replace_with_nan. rewrite <- list_fmap_compose.
  rewrite Hvalid. simpl. rewrite <- list_fmap_compose.
  rewrite zip_with_fmap_same. rewrite Hdate.
  assert (Hmask : (fun x : nat * Row =>
             if is_null
                  ((((fun c : cell =>
                        match c with
                        | Some (Str s) => if decide (s ∈ p_other_nulls p) then None else c
                        | _ => c
                        end) ∘ (cell_of field ∘ snd)) x))
             then negb mandatory
             else (r_ok e ∘ ((fun c : cell =>
                        match c with
                        | Some (Str s) => if decide (s ∈ p_other_nulls p) then None else c
                        | _ => c
                        end) ∘ (cell_of field ∘ snd))) x)
          = mask1 field e mandatory ∘ snd).
  { unfold mask1, replace1. rewrite Hnulls. done. }
  rewrite Hmask. clear Hmask.
  rewrite set_column_self. simpl.
  unfold table_step, fails.
  assert (Hstep : forall (row2 : nat * Row -> Row) (ids : gset nat),
     (forall x, is_Some (row2 x !! field)) ->
     (df' ← apply_post field (p_post_process p) ((fun x => (x.1, row2 x)) <$> df);
      df'' ← apply_gens field (p_generated_cols p) df';
      Some (if p_drop_field p then drop_column df'' field else df'',
            rejects_update field ids rejects))
     = Some ((fun x : nat * Row =>
                (x.1, let row3 := row_gens field (r_gen e)
                                    (row_post field (r_post e) (row2 x)) in
                      if r_drop e then delete field row3 else row3)) <$> df,
             rejects_update field ids rejects)).
  { intros row2 ids Hrow2.
    rewrite (apply_post_rows _ _ _ _ _ Hpost) by (intros; apply Hrow2). simpl.
    rewrite (apply_gens_rows field _ _ df
               (fun x => (x.1, row_post field (r_post e) (row2 x))) Hgen); last first.
    { intros x _. simpl. clear -Hrow2. specialize (Hrow2 x).
      revert Hrow2. generalize (row2 x). unfold row_post.
      induction (r_post e) as [|t ts IH]; intros row H; simpl; [done|].
      apply IH. rewrite lookup_insert_is_Some. auto. }
    simpl. rewrite Hdrop. f_equal. f_equal.
    destruct (r_drop e); [|done].
    unfold drop_column. rewrite <- list_fmap_compose. done. }
  destruct mandatory; simpl.
  - rewrite (Hstep (fun x => <[field := replace1 (p_other_nulls p) (cell_of field x.2)]> x.2)).
    + f_equal. f_equal. apply list_fmap_ext. intros _ [i row] _. simpl.
      unfold row_step. simpl. by rewrite Hnulls.
    + intros x. rewrite lookup_insert_is_Some. auto.
  - destruct (forallb id ((mask1 field e false ∘ snd) <$> df)) eqn:Hall; simpl.
    + rewrite (Hstep (fun x => <[field := replace1 (p_other_nulls p) (cell_of field x.2)]> x.2)).
      * f_equal. f_equal. apply list_fmap_ext. intros _ [i row] _. simpl.
        unfold row_step. simpl. by rewrite Hnulls.
      * intros x. rewrite lookup_insert_is_Some. auto.
    + unfold where_. rewrite <- list_fmap_compose.
      rewrite !zip_with_fmap_same.
      rewrite (set_column_fmap df _ (field +:+ "_orig")). simpl.
      rewrite set_column_fmap. simpl.
      rewrite (Hstep (fun x =>
                 <[field := if mask1 field e false x.2
                            then replace1 (p_other_nulls p) (cell_of field x.2)
                            else None]>
                 (<[field +:+ "_orig" := if negb (mask1 field e false x.2)
                                         then replace1 (p_other_nulls p) (cell_of field x.2)
                                         else None]>
                  (<[field := replace1 (p_other_nulls p) (cell_of field x.2)]> x.2)))).
      * f_equal. f_equal. apply list_fmap_ext. intros _ [i row] _. simpl.
        unfold row_step. simpl. rewrite Hnulls.
        by destruct (mask1 field e false row).
      * intros x. rewrite lookup_insert_is_Some. auto.
Qed.

(** *** Frame: a rule leaves the columns it does not write alone *)

Lemma write_cols_other c names (row : Row) name :
  name ∉ names.*1 -> write_cols c names row !! name = row !! name.
Proof.
  revert row. induction names as [|nh names IH]; intros row H; simpl; [done|].
  rewrite fmap_cons, not_elem_of_cons in H. destruct H as [Hne H].
  rewrite IH by done. by rewrite lookup_insert_ne.
Qed.

Lemma row_post_other field posts (row : Row) name :
  name <> field -> row_post field posts row !! name = row !! name.
Proof.
  intros Hne. revert row. unfold row_post.
  induction posts as [|t posts IH]; intros row; simpl; [done|].
  rewrite IH. by rewrite lookup_insert_ne.
Qed.

Lemma row_gens_other field gens (row : Row) name :
  name ∉ (concat gens).*1 -> row_gens field gens row !! name = row !! name.
Proof.
  revert row. unfold row_gens.
  induction gens as [|names gens IH]; intros row H; simpl; [done|].
  simpl in H. rewrite fmap_app, not_elem_of_app in H. destruct H as [H1 H2].
  rewrite IH by done. by apply write_cols_other.
Qed.

Lemma row_gens_is_Some field gens (row : Row) name :
  is_Some (row !! name) -> is_Some (row_gens field gens row !! name).
Proof.
  revert row. unfold row_gens.
  induction gens as [|names gens IH]; intros row H; simpl; [done|].
  apply IH. by apply write_cols_is_Some.
Qed.

Lemma row_step_other field e mandatory any_failed (row : Row) name :
  name ∉ touched (field, e) ->
  row_step field e mandatory any_failed row !! name = row !! name.
Proof.
  unfold touched. simpl. rewrite !not_elem_of_cons.
  intros (Hf & Ho & Hg). unfold row_step.
  assert (Hrest : forall row2 : Row,
            (if r_drop e
             then delete field (row_gens field (r_gen e) (row_post field (r_post e) row2))
             else row_gens field (r_gen e) (row_post field (r_post e) row2)) !! name
            = row2 !! name).
  { intros row2. destruct (r_drop e).
    - rewrite lookup_delete_ne by done.
      by rewrite row_gens_other, row_post_other.
    - by rewrite row_gens_other, row_post_other. }
  rewrite Hrest.
  destruct (mandatory || negb any_failed); by rewrite !lookup_insert_ne.
Qed.

Lemma row_step_is_Some field e mandatory any_failed (row : Row) name :
  name <> field -> is_Some (row !! name) ->
  is_Some (row_step field e mandatory any_failed row !! name).
Proof.
  intros Hne H. unfold row_step.
  assert (Hrest : forall row2 : Row, is_Some (row2 !! name) ->
            is_Some ((if r_drop e
             then delete field (row_gens field (r_gen e) (row_post field (r_post e) row2))
             else row_gens field (r_gen e) (row_post field (r_post e) row2)) !! name)).
  { intros row2 H2.
    assert (is_Some (row_gens field (r_gen e) (row_post field (r_post e) row2) !! name)).
    { apply row_gens_is_Some. by rewrite row_post_other. }
    destruct (r_drop e); [by rewrite lookup_delete_ne|done]. }
  apply Hrest.
  destruct (mandatory || negb any_failed); repeat apply insert_keeps; done.
Qed.

Lemma table_step_index field e mandatory df :
  index (table_step field e mandatory df) = index df.
Proof. unfold table_step. apply index_fmap_row with (f := fun r => row_step _ _ _ _ r.2). Qed.

Lemma table_step_has_column field e mandatory df name :
  name <> field -> has_column df name ->
  has_column (table_step field e mandatory df) name.
Proof.
  intros Hne H. unfold has_column, table_step in *. rewrite Forall_fmap.
  eapply Forall_impl; [exact H|].
  intros [i row] Hrow. simpl in *. by apply row_step_is_Some.
Qed.

Lemma process_fields_rows mandatory fields rules df rejects :
  Forall2 (fun (fp : string * Params) (fe : string * Rule) =>
             fp.1 = fe.1 /\ rule_of parse_date fp.2 fe.2) fields rules ->
  NoDup rules.*1 ->
  Forall (has_column df) rules.*1 ->
  process_fields parse_date mandatory fields df rejects
  = Some (run_rules mandatory rules df rejects).
Proof.
  intros HF. revert df rejects.
  induction HF as [|[f p] [f' e] fields rules [Hf Hr] HF IH];
    intros df rejects Hnd Hcols; simpl; [done|].
  simpl in Hf, Hr. subst f'.
  rewrite fmap_cons in Hnd, Hcols. simpl in Hnd, Hcols.
  apply NoDup_cons in Hnd as [Hnotin Hnd].
  apply Forall_cons in Hcols as [Hcol Hcols].
  rewrite (process_field_rows _ _ _ _ _ _ Hr Hcol). simpl.
  apply IH; [done|].
  rewrite Forall_forall in Hcols |- *. intros name Hname.
  apply table_step_has_column; [|by apply Hcols].
  intros ->. done.
Qed.

(** *** The rules of the notebook are elementwise *)

Lemma zip_with_andb_true_l (l : list bool) :
  zip_with andb (replicate (length l) true) l = l.
Proof. induction l as [|b l IH]; simpl; [done|]. by rewrite IH. Qed.

Lemma zip_with_andb_true_r (l : list bool) :
  zip_with andb l (replicate (length l) true) = l.
Proof.
  induction l as [|b l IH]; simpl; [done|]. rewrite IH. by rewrite andb_true_r.
Qed.

Lemma validate_pattern p r col :
  p_valid_values p = None -> p_validation p = Some (Pattern r) ->
  p_date_field p = false ->
  validate parse_date p col = Some (str_ok (Re.matches r) <$> col).
Proof.
  intros Hv Hp Hd. unfold validate. rewrite Hv, Hp, Hd. simpl.
  unfold Pd.str_match. rewrite <- list_fmap_compose.
  f_equal.
  rewrite <- (length_fmap ((fun b => bool_decide (b = Some true))
              ∘ (fun c => match Pd.on_str (Re.matches r) c with
                          | Some b => Some b | None => None end)) col) at 2.
  rewrite zip_with_andb_true_r.
  rewrite <- (length_fmap ((fun b => bool_decide (b = Some true))
              ∘ (fun c => match Pd.on_str (Re.matches r) c with
                          | Some b => Some b | None => None end)) col).
  rewrite zip_with_andb_true_l.
  apply list_fmap_ext. intros _ [[s|d]|] _; simpl; try done.
  by destruct (Re.matches r s).
Qed.

Lemma validate_predicate p F (f : cell -> option bool) ok col :
  p_valid_values p = None -> p_validation p = Some (Predicate F) ->
  p_date_field p = false ->
  (forall s, F s = f <$> s) ->
  (forall c, ok c = bool_decide (f c = Some true)) ->
  validate parse_date p col = Some (ok <$> col).
Proof.
  intros Hv Hp Hd HF Hok. unfold validate. rewrite Hv, Hp, Hd. simpl.
  rewrite HF, length_fmap, decide_True by done. simpl.
  rewrite <- list_fmap_compose. f_equal.
  rewrite <- (length_fmap ((fun b => bool_decide (b = Some true)) ∘ f) col) at 2.
  rewrite zip_with_andb_true_r.
  rewrite <- (length_fmap ((fun b => bool_decide (b = Some true)) ∘ f) col).
  rewrite zip_with_andb_true_l.
  apply list_fmap_ext. intros _ c _. simpl. by rewrite Hok.
Qed.

Lemma validate_values p allowed col :
  p_valid_values p = Some allowed -> p_validation p = None ->
  p_date_field p = false ->
  validate parse_date p col
  = Some (str_ok (fun s => bool_decide (Str.lower s ∈ Str.lower <$> allowed)) <$> col).
Proof.
  intros Hv Hp Hd. unfold validate. rewrite Hv, Hp, Hd. simpl. f_equal.
  rewrite zip_with_replicate. simpl.
  rewrite <- (length_fmap
                (str_ok (fun s => bool_decide (Str.lower s ∈ Str.lower <$> allowed)))
                col).
  apply zip_with_andb_true_r.
Qed.

Lemma zip_to_five_elementwise (zips : Series) : zip_to_five zips = zip5 <$> zips.
Proof.
  unfold zip_to_five, Pd.eq, Pd.str_len, Pd.prepend.
  induction zips as [|c zips IH]; csimpl; [done|].
  f_equal; [|exact IH].
  destruct c as [[s|d]|]; simpl; try done.
  repeat case_bool_decide; repeat case_decide; try done; lia.
Qed.

Lemma long_val_elementwise r (series : Series) :
  Pd.and (Pd.str_match r (Some false) series) (Pd.le 50 (Pd.str_len series))
  = (fun c => Some (long_ok r c)) <$> series.
Proof.
  unfold Pd.and, Pd.str_match, Pd.le, Pd.str_len.
  rewrite <- list_fmap_compose, zip_with_fmap_same.
  apply list_fmap_ext. intros _ [[s|d]|] _; simpl; try done.
Qed.

Lemma extract_generator r name1 name2 (l : DataFrame)
    (h : nat * Row -> nat * Row) (g : nat * Row -> cell) :
  (df ← set_column (h <$> l) name1 (Pd.str_extract r (g <$> l)).*1;
   set_column df name2 (Pd.str_extract r (g <$> l)).*2)
  = Some ((fun x => ((h x).1,
                     write_cols (g x) [(name1, fst ∘ Pd.extract1 r);
                                       (name2, snd ∘ Pd.extract1 r)] (h x).2)) <$> l).
Proof.
  unfold Pd.str_extract. rewrite <- !list_fmap_compose.
  rewrite set_column_fmap. simpl. by rewrite set_column_fmap.
Qed.

Lemma rule_of_check p F (f : cell -> option bool) ok :
  p = kwargs [validation (Predicate F)] ->
  (forall s, F s = f <$> s) ->
  (forall c, ok c = bool_decide (f c = Some true)) ->
  rule_of parse_date p (check ok).
Proof.
  intros -> HF Hok. repeat split; simpl; try done; try constructor.
  intros col. by apply validate_predicate with (F := F) (f := f).
Qed.

Lemma isdigit_elementwise (series : Series) :
  Pd.str_isdigit series = Pd.on_str Str.isdigit <$> series.
Proof. done. Qed.

Lemma bool_is_true (b : bool) : b = bool_decide (Some b = Some true).
Proof.
  destruct b; symmetry;
    [apply bool_decide_eq_true_2|apply bool_decide_eq_false_2]; congruence.
Qed.

Lemma str_ok_on_str (f : string -> bool) (c : cell) :
  str_ok f c = bool_decide (Pd.on_str f c = Some true).
Proof. destruct c as [[s|d]|]; simpl; try done. apply bool_is_true. Qed.

Lemma rule_of_id : rule_of parse_date (kwargs [validation (Predicate id_val)]) (check id_ok).
Proof.
  eapply rule_of_check; [done|apply isdigit_elementwise|apply str_ok_on_str].
Qed.

Lemma rule_of_case_number :
  rule_of parse_date (kwargs [validation (Predicate case_number_val)]) (check case_number_ok).
Proof.
  eapply rule_of_check with
    (f := fun c => Pd.on_str (fun s => Re.matches MY_REGX.TWO_LETTERS (Str.slice 0 2 s)) c);
    [done| |apply str_ok_on_str].
  intros s. unfold case_number_val, Pd.str_match, Pd.str_slice.
  rewrite <- list_fmap_compose. apply list_fmap_ext.
  intros _ [[x|d]|] _; simpl; done.
Qed.

Lemma soft_rules_represent :
  Forall2 (fun (fp : string * Params) (fe : string * Rule) =>
             fp.1 = fe.1 /\ rule_of parse_date fp.2 fe.2) nullable_fields soft_rules.
Proof.
  assert (Hpat : forall r, forall col,
            validate parse_date (kwargs [validation (Pattern r)]) col
            = Some (str_ok (Re.matches r) <$> col)).
  { intros r col. by apply validate_pattern. }
  assert (Hint : rule_of parse_date (kwargs [validation (Predicate valid_int)])
                         (check (str_ok Str.isdigit))).
  { eapply rule_of_check; [done|apply isdigit_elementwise|apply str_ok_on_str]. }
  assert (Htf : rule_of parse_date (kwargs [valid_values tf_valid]) (check tf_ok)).
  { repeat split; simpl; try done; try constructor.
    intros col. by apply validate_values. }
  assert (Htitle : Forall2
            (fun (pt : option string * (Series -> Series)) (t : cell -> cell) =>
               pt.1 = None /\ forall s, pt.2 s = t <$> s)
            [(None, capitalize_first)] [title1]).
  { repeat constructor. }
  assert (Hlong : forall r F,
            (forall s, F s = Pd.and (Pd.str_match r (Some false) s)
                                    (Pd.le 50 (Pd.str_len s))) ->
            rule_of parse_date (kwargs [validation (Predicate F); post_process [(None, capitalize_first)]])
                    {| r_nulls := []; r_ok := long_ok r; r_post := [title1];
                       r_gen := []; r_drop := false |}).
  { intros r F HF. repeat split; simpl; try done; try constructor.
    intros col.
    apply validate_predicate with (F := F) (f := fun c => Some (long_ok r c)); try done.
    - intros s. rewrite HF. apply long_val_elementwise.
    - intros c. apply bool_is_true. }
  unfold nullable_fields, soft_rules.
  repeat (apply List.Forall2_cons; [split; [reflexivity|]|]);
    try apply List.Forall2_nil;
    try exact Hint; try exact Htf; try (by apply Hlong).
  all: repeat split; simpl; try done.
  all: try (by intros col; apply validate_pattern).
  all: try exact Htitle.
  all: repeat constructor; simpl; try done.
  - intros l h g. apply extract_generator.
  - intros l h g. apply extract_generator.
  - intros s. apply zip_to_five_elementwise.
Qed.

End Rows.

(** ** Reject records *)

Lemma rejects_get_update_eq field ids rejects :
  rejects_get field (rejects_update field ids rejects) = rejects_get field rejects ∪ ids.
Proof.
  induction rejects as [|[f s] rest IH]; simpl.
  - rewrite decide_True by done. by rewrite (left_id_L ∅ (∪)).
  - destruct (decide (f = field)) as [->|Hne]; simpl.
    + by rewrite decide_True.
    + by rewrite decide_False.
Qed.

Lemma rejects_get_update_ne field field' ids rejects :
  field <> field' ->
  rejects_get field (rejects_update field' ids rejects) = rejects_get field rejects.
Proof.
  intros Hne. induction rejects as [|[f s] rest IH]; simpl.
  - by rewrite decide_False.
  - destruct (decide (f = field')) as [->|Hne']; simpl.
    + by rewrite !decide_False.
    + destruct (decide (f = field)); [done|apply IH].
Qed.

(** ** What a rule leaves in its own columns *)

Section RowStep.

Implicit Types (row : Row) (field name : string).


Lemma agree_insert field name row0 row k (v : cell) :
  agree field name row0 row -> agree field name (<[k := v]> row0) (<[k := v]> row).
Proof.
  intros [Hf Hn]. split.
  - destruct (decide (k = field)) as [->|]; [by rewrite !lookup_insert_eq|].
    by rewrite !lookup_insert_ne.
  - destruct (decide (k = name)) as [->|]; [by rewrite !lookup_insert_eq|].
    by rewrite !lookup_insert_ne.
Qed.

Lemma agree_delete field name row0 row k :
  agree field name row0 row -> agree field name (delete k row0) (delete k row).
Proof.
  intros [Hf Hn]. split.
  - destruct (decide (k = field)) as [->|]; [by rewrite !lookup_delete_eq|].
    by rewrite !lookup_delete_ne.
  - destruct (decide (k = name)) as [->|]; [by rewrite !lookup_delete_eq|].
    by rewrite !lookup_delete_ne.
Qed.

Lemma agree_cell field name row0 row :
  agree field name row0 row -> cell_of field row0 = cell_of field row.
Proof. intros [Hf _]. unfold cell_of. by rewrite Hf. Qed.

Lemma agree_write_cols field name c names row0 row :
  agree field name row0 row ->
  agree field name (write_cols c names row0) (write_cols c names row).
Proof.
  revert row0 row. induction names as [|nh names IH]; intros row0 row H; simpl; [done|].
  apply IH. by apply agree_insert.
Qed.

Lemma agree_row_post field name posts row0 row :
  agree field name row0 row ->
  agree field name (row_post field posts row0) (row_post field posts row).
Proof.
  revert row0 row. unfold row_post.
  induction posts as [|t posts IH]; intros row0 row H; simpl; [done|].
  apply IH. rewrite (agree_cell _ _ _ _ H). by apply agree_insert.
Qed.

Lemma agree_row_gens field name gens row0 row :
  agree field name row0 row ->
  agree field name (row_gens field gens row0) (row_gens field gens row).
Proof.
  revert row0 row. unfold row_gens.
  induction gens as [|names gens IH]; intros row0 row H; simpl; [done|].
  apply IH. rewrite (agree_cell _ _ _ _ H). by apply agree_write_cols.
Qed.

Lemma row_step_agree field name e mandatory any_failed row0 row :
  agree field name row0 row ->
  agree field name (row_step field e mandatory any_failed row0)
                   (row_step field e mandatory any_failed row).
Proof.
  intros H. unfold row_step, mask1. rewrite (agree_cell _ _ _ _ H).
  set (c := replace1 (r_nulls e) (cell_of field row)).
  assert (H2 : agree field name
    (if mandatory || negb any_failed then <[field := c]> row0
     else <[field := if (if is_null c then negb mandatory else r_ok e c) then c else None]>
            (<[field +:+ "_orig" := if (if is_null c then negb mandatory else r_ok e c)
                                    then None else c]> (<[field := c]> row0)))
    (if mandatory || negb any_failed then <[field := c]> row
     else <[field := if (if is_null c then negb mandatory else r_ok e c) then c else None]>
            (<[field +:+ "_orig" := if (if is_null c then negb mandatory else r_ok e c)
                                    then None else c]> (<[field := c]> row)))).
  { destruct (mandatory || negb any_failed); repeat apply agree_insert; done. }
  destruct (r_drop e).
  - apply agree_delete. by apply agree_row_gens, agree_row_post.
  - by apply agree_row_gens, agree_row_post.
Qed.

Lemma length_append (s1 s2 : string) :
  String.length (s1 +:+ s2) = String.length s1 + String.length s2.
Proof. induction s1 as [|a s1 IH]; simpl; [done|]. by rewrite IH. Qed.

Lemma orig_neq field : field +:+ "_orig" <> field.
Proof.
  intros H. apply (f_equal String.length) in H.
  rewrite length_append in H. simpl in H. lia.
Qed.


Lemma row_post_field field posts row c :
  row !! field = Some c ->
  row_post field posts row !! field = Some (foldl (fun v t => t v) c posts).
Proof.
  revert row c. unfold row_post.
  induction posts as [|t posts IH]; intros row c H; simpl; [done|].
  apply IH. rewrite lookup_insert_eq. unfold cell_of. by rewrite H.
Qed.

Lemma row_step_field field e mandatory any_failed row :
  field ∉ (concat (r_gen e)).*1 ->
  row_step field e mandatory any_failed row !! field
  = if r_drop e then None
    else Some (final_value e mandatory any_failed (cell_of field row)).
Proof.
  intros Hg. unfold row_step.
  destruct (r_drop e); [by rewrite lookup_delete_eq|].
  rewrite row_gens_other by done.
  unfold final_value, mask1.
  set (c := replace1 (r_nulls e) (cell_of field row)).
  destruct (mandatory || negb any_failed).
  - apply row_post_field. by rewrite lookup_insert_eq.
  - apply row_post_field. by rewrite lookup_insert_eq.
Qed.

Lemma row_step_shadow field e mandatory any_failed row :
  (field +:+ "_orig") ∉ (concat (r_gen e)).*1 ->
  row_step field e mandatory any_failed row !! (field +:+ "_orig")
  = if mandatory || negb any_failed then row !! (field +:+ "_orig")
    else Some (if mask1 field e mandatory row then None
               else replace1 (r_nulls e) (cell_of field row)).
Proof.
  intros Hg. unfold row_step.
  pose proof (orig_neq field) as Hne.
  assert (Hrest : forall row2 : Row,
    (if r_drop e
     then delete field (row_gens field (r_gen e) (row_post field (r_post e) row2))
     else row_gens field (r_gen e) (row_post field (r_post e) row2))
      !! (field +:+ "_orig") = row2 !! (field +:+ "_orig")).
  { intros row2. destruct (r_drop e).
    - rewrite lookup_delete_ne by done. by rewrite row_gens_other, row_post_other.
    - by rewrite row_gens_other, row_post_other. }
  rewrite Hrest.
  destruct (mandatory || negb any_failed).
  - by rewrite lookup_insert_ne.
  - rewrite lookup_insert_ne by done. by rewrite lookup_insert_eq.
Qed.

(** A rule with one generator: the generated columns are computed from the
    final value of the rule's own column. *)
Lemma row_step_generated field e mandatory any_failed row names :
  r_gen e = [names] ->
  exists row2 : Row,
    row_step field e mandatory any_failed row
    = (if r_drop e then delete field else id)
        (write_cols (final_value e mandatory any_failed (cell_of field row)) names row2).
Proof.
  intros Hgen. unfold row_step. rewrite Hgen. unfold row_gens. simpl.
  set (c := replace1 (r_nulls e) (cell_of field row)).
  set (row2 := if mandatory || negb any_failed then <[field := c]> row
               else <[field := if mask1 field e mandatory row then c else None]>
                      (<[field +:+ "_orig" := if mask1 field e mandatory row
                                              then None else c]> (<[field := c]> row))).
  assert (Hcur : row2 !! field
                 = Some (if mandatory || negb any_failed then c
                         else if mask1 field e mandatory row then c else None)).
  { unfold row2. destruct (mandatory || negb any_failed); by rewrite lookup_insert_eq. }
  exists (row_post field (r_post e) row2).
  assert (Hcell : cell_of field (row_post field (r_post e) row2)
                  = final_value e mandatory any_failed (cell_of field row)).
  { unfold cell_of at 1. by rewrite (row_post_field _ _ _ _ Hcur). }
  rewrite Hcell. by destruct (r_drop e).
Qed.

End RowStep.

(** ** A list of rules, one rule at a time *)

Section RunRules.

Implicit Types (df : DataFrame) (rules : list (string * Rule)).

Lemma run_rules_app mandatory pre post df rejects :
  run_rules mandatory (pre ++ post) df rejects
  = run_rules mandatory post (run_rules mandatory pre df rejects).1
                             (run_rules mandatory pre df rejects).2.
Proof.
  revert df rejects. induction pre as [|[f e] pre IH]; intros df rejects; simpl; [done|].
  apply IH.
Qed.

(** The rules act on each row by itself and leave the columns none of them
    writes as they were. *)
Lemma run_rules_rows mandatory rules df rejects :
  exists G : Row -> Row,
    (run_rules mandatory rules df rejects).1 = (fun r => (r.1, G r.2)) <$> df
    /\ forall row name,
         Forall (fun fe => name ∉ touched fe) rules -> G row !! name = row !! name.
Proof.
  revert df rejects. induction rules as [|[f e] rules IH]; intros df rejects; simpl.
  - exists id. split; [|done].
    rewrite <- (list_fmap_id df) at 1. apply list_fmap_ext. by intros _ [??] _.
  - destruct (IH (table_step f e mandatory df)
                 (rejects_update f (fails f e mandatory df) rejects)) as (G & HG & Hframe).
    set (b := negb (forallb id ((mask1 f e mandatory ∘ snd) <$> df))).
    exists (G ∘ row_step f e mandatory b). split.
    + rewrite HG. unfold table_step. fold b. rewrite <- list_fmap_compose. done.
    + intros row name Hname. apply Forall_cons in Hname as [H1 H2]. simpl.
      rewrite Hframe by done. by apply row_step_other.
Qed.

Lemma run_rules_index mandatory rules df rejects :
  index (run_rules mandatory rules df rejects).1 = index df.
Proof.
  destruct (run_rules_rows mandatory rules df rejects) as (G & -> & _).
  apply index_fmap_row with (f := fun r => G r.2).
Qed.

Lemma run_rules_rejects_other mandatory rules df rejects field :
  field ∉ rules.*1 ->
  rejects_get field (run_rules mandatory rules df rejects).2 = rejects_get field rejects.
Proof.
  revert df rejects. induction rules as [|[f e] rules IH]; intros df rejects H; simpl;
    [done|].
  rewrite fmap_cons, not_elem_of_cons in H. destruct H as [Hne H].
  rewrite IH by done. by apply rejects_get_update_ne.
Qed.

Lemma mask1_rows field e mandatory (G : Row -> Row) df :
  (forall row, G row !! field = row !! field) ->
  (mask1 field e mandatory ∘ snd) <$> ((fun r : nat * Row => (r.1, G r.2)) <$> df)
  = (mask1 field e mandatory ∘ snd) <$> df.
Proof.
  intros HG. rewrite <- list_fmap_compose. apply list_fmap_ext.
  intros _ [i row] _. simpl. unfold mask1, cell_of. by rewrite HG.
Qed.

Lemma fails_rows field e mandatory (G : Row -> Row) df :
  (forall row, G row !! field = row !! field) ->
  fails field e mandatory ((fun r : nat * Row => (r.1, G r.2)) <$> df)
  = fails field e mandatory df.
Proof.
  intros HG. unfold fails. rewrite mask1_rows by done.
  by rewrite (index_fmap_row (fun r => G r.2)).
Qed.

(** One rule among others that do not write its columns: its effect on a
    row is that of the rule alone on the original row. *)
Lemma run_rules_focus mandatory pre field e post df rejects :
  Forall (fun fe => field ∉ touched fe) (pre ++ post) ->
  let any_failed := negb (forallb id ((mask1 field e mandatory ∘ snd) <$> df)) in
  exists G : Row -> Row,
    (run_rules mandatory (pre ++ (field, e) :: post) df rejects).1
    = (fun r => (r.1, G r.2)) <$> df
    /\ (forall row name,
          Forall (fun fe => name ∉ touched fe) (pre ++ post) ->
          G row !! name = row_step field e mandatory any_failed row !! name)
    /\ rejects_get field (run_rules mandatory (pre ++ (field, e) :: post) df rejects).2
       = rejects_get field rejects ∪ fails field e mandatory df.
Proof.
  intros Hf any_failed. apply Forall_app in Hf as [Hpre Hpost].
  rewrite run_rules_app. simpl.
  destruct (run_rules_rows mandatory pre df rejects) as (G1 & HG1 & Hframe1).
  set (rej1 := (run_rules mandatory pre df rejects).2) in *.
  rewrite HG1.
  assert (HG1f : forall row, G1 row !! field = row !! field).
  { intros row. by apply Hframe1. }
  rewrite fails_rows by done.
  unfold table_step. rewrite mask1_rows by done. fold any_failed.
  rewrite <- list_fmap_compose.
  destruct (run_rules_rows mandatory post
              (((fun r : nat * Row => (r.1, row_step field e mandatory any_failed r.2))
                ∘ (fun r : nat * Row => (r.1, G1 r.2))) <$> df)
              (rejects_update field (fails field e mandatory df) rej1))
    as (G2 & HG2 & Hframe2).
  exists (G2 ∘ row_step field e mandatory any_failed ∘ G1). split; [|split].
  - rewrite HG2, <- list_fmap_compose. done.
  - intros row name Hname. apply Forall_app in Hname as [Hn1 Hn2]. simpl.
    rewrite Hframe2 by done.
    apply (row_step_agree field name). split; [apply HG1f|by apply Hframe1].
  - assert (Hnotin : forall rules, Forall (fun fe => field ∉ touched fe) rules ->
                                   field ∉ rules.*1).
    { intros rules H. rewrite list_elem_of_fmap. intros ([f' e'] & -> & Hin).
      rewrite Forall_forall in H. apply (H _ Hin). unfold touched. simpl. left. }
    rewrite run_rules_rejects_other by auto.
    rewrite rejects_get_update_eq. unfold rej1.
    by rewrite run_rules_rejects_other by auto.
Qed.

Lemma apart_Forall fe others :
  apart fe others = true ->
  Forall (fun fe' => fe.1 ∉ touched fe') others
  /\ Forall (fun fe' => (fe.1 +:+ "_orig") ∉ touched fe') others.
Proof.
  unfold apart. rewrite forallb_forall. intros H.
  split; apply Forall_forall; intros fe' Hin;
    apply list_elem_of_In, H, andb_prop in Hin as [H1 H2];
    by apply bool_decide_eq_true in H1, H2.
Qed.

Lemma independent_split (before rules pre : list (string * Rule)) fe post :
  independent before rules = true ->
  rules = pre ++ fe :: post ->
  apart fe (before ++ pre ++ post) = true.
Proof.
  revert before pre. induction rules as [|x rules IH]; intros before pre Hind Heq.
  - by destruct pre.
  - simpl in Hind. apply andb_prop in Hind as [Hx Hrest].
    destruct pre as [|y pre]; simpl in Heq; injection Heq as -> ->.
    + done.
    + specialize (IH (before ++ [y]) pre Hrest eq_refl).
      by rewrite <- app_assoc in IH.
Qed.

End RunRules.

(** ** Reject sets *)

Lemma elem_of_failing labels mask i :
  i ∈ failing labels mask <-> exists k, labels !! k = Some i /\ mask !! k = Some false.
Proof.
  unfold failing. rewrite elem_of_list_to_set, list_elem_of_fmap. split.
  - intros ([i' b] & -> & Hin). apply list_elem_of_filter in Hin as [Hb Hin].
    simpl in Hb. subst b. apply list_elem_of_lookup in Hin as [k Hk].
    apply lookup_zip_with_Some in Hk as (x & y & [= <- <-] & Hx & Hy). eauto.
  - intros (k & Hl & Hm). exists (i, false). split; [done|].
    apply list_elem_of_filter. split; [done|].
    apply list_elem_of_lookup. exists k.
    apply lookup_zip_with_Some. eauto.
Qed.

Lemma elem_of_fails field e mandatory (df : DataFrame) i :
  i ∈ fails field e mandatory df
  <-> exists row, (i, row) ∈ df /\ mask1 field e mandatory row = false.
Proof.
  unfold fails. rewrite elem_of_failing. unfold index. split.
  - intros (k & Hl & Hm). rewrite list_lookup_fmap in Hl. rewrite list_lookup_fmap in Hm.
    destruct (df !! k) as [[i' row]|] eqn:Hk; simpl in *; [|done].
    injection Hl as ->. injection Hm as Hm.
    exists row. split; [|done]. apply list_elem_of_lookup. eauto.
  - intros (row & Hin & Hm). apply list_elem_of_lookup in Hin as [k Hk].
    exists k. rewrite !list_lookup_fmap, Hk. simpl. by rewrite Hm.
Qed.

Lemma NoDup_index_row (df : DataFrame) i row row' :
  NoDup (index df) -> (i, row) ∈ df -> (i, row') ∈ df -> row = row'.
Proof.
  intros Hnd H1 H2.
  apply list_elem_of_lookup in H1 as [k1 H1], H2 as [k2 H2].
  assert (k1 = k2) as ->.
  { eapply (NoDup_lookup (index df)); [done| |]; unfold index;
      rewrite list_lookup_fmap; [by rewrite H1|by rewrite H2]. }
  congruence.
Qed.

Lemma elem_of_fails_row field e mandatory (df : DataFrame) i row :
  NoDup (index df) -> (i, row) ∈ df ->
  i ∈ fails field e mandatory df <-> mask1 field e mandatory row = false.
Proof.
  intros Hnd Hin. rewrite elem_of_fails. split.
  - intros (row' & Hin' & Hm). by rewrite (NoDup_index_row df i row row').
  - eauto.
Qed.

Lemma any_failed_false field e mandatory (df : DataFrame) i row :
  negb (forallb id ((mask1 field e mandatory ∘ snd) <$> df)) = false ->
  (i, row) ∈ df -> mask1 field e mandatory row = true.
Proof.
  intros H Hin. apply negb_false_iff in H.
  rewrite forallb_forall in H. apply (H _).
  apply list_elem_of_In, list_elem_of_fmap. by exists (i, row).
Qed.

Lemma any_failed_true field e mandatory (df : DataFrame) i row :
  (i, row) ∈ df -> mask1 field e mandatory row = false ->
  negb (forallb id ((mask1 field e mandatory ∘ snd) <$> df)) = true.
Proof.
  intros Hin Hm. apply negb_true_iff.
  destruct (forallb id _) eqn:Hall; [|done].
  rewrite forallb_forall in Hall.
  rewrite <- Hm. symmetry. apply (Hall _).
  apply list_elem_of_In, list_elem_of_fmap. by exists (i, row).
Qed.

(** ** The soft-reject phase, row by row *)

Section Soft.

Variable parse_date : string -> option Timestamp.

Lemma soft_names_NoDup : NoDup soft_rules.*1.
Proof. apply (bool_decide_unpack _). by vm_compute. Qed.

Lemma soft_independent : independent [] soft_rules = true.
Proof. by vm_compute. Qed.

Lemma process_soft_rejects_rows df :
  Forall (has_column df) nullable_fields.*1 ->
  process_soft_rejects parse_date df = Some (run_rules false soft_rules df []).
Proof.
  intros Hcols. unfold process_soft_rejects.
  apply process_fields_rows.
  - apply soft_rules_represent.
  - apply soft_names_NoDup.
  - exact Hcols.
Qed.

Lemma soft_focus df pre field e post :
  soft_rules = pre ++ (field, e) :: post ->
  Forall (has_column df) nullable_fields.*1 ->
  let any_failed := negb (forallb id ((mask1 field e false ∘ snd) <$> df)) in
  exists (G : Row -> Row) (soft_rejects : Rejects),
    process_soft_rejects parse_date df
    = Some ((fun r : nat * Row => (r.1, G r.2)) <$> df, soft_rejects)
    /\ rejects_get field soft_rejects = fails field e false df
    /\ (forall name, name = field \/ name = field +:+ "_orig" ->
          Forall (fun fe => name ∉ touched fe) (pre ++ post))
    /\ forall row name,
         Forall (fun fe => name ∉ touched fe) (pre ++ post) ->
         G row !! name = row_step field e false any_failed row !! name.
Proof.
  intros Hsplit Hcols any_failed.
  pose proof (independent_split [] soft_rules pre (field, e) post
                soft_independent Hsplit) as Hapart.
  simpl in Hapart. apply apart_Forall in Hapart as [Hf Ho]. simpl in Hf, Ho.
  destruct (run_rules_focus false pre field e post df [] Hf) as (G & HG & Hrow & Hrej).
  exists G, (run_rules false (pre ++ (field, e) :: post) df []).2.
  rewrite process_soft_rejects_rows by done. rewrite Hsplit.
  split; [|split; [|split]].
  - rewrite <- HG. by destruct (run_rules _ _ _ _).
  - rewrite Hrej. simpl. by rewrite (left_id_L ∅ (∪)).
  - by intros name [->| ->].
  - exact Hrow.
Qed.

End Soft.

(** ** The claims about the soft-reject phase *)


Section SoftClaims.

Variable parse_date : string -> option Timestamp.

Lemma clean_columns_lookup (df : DataFrame) k i (row : Row) name :
  df !! k = Some (i, row) ->
  contains "_orig" name = false ->
  exists row', clean_columns df !! k = Some (i, row') /\ row' !! name = row !! name.
Proof.
  intros Hk Hname. unfold clean_columns. rewrite list_lookup_fmap, Hk. simpl.
  eexists. split; [done|].
  destruct (row !! name) as [c|] eqn:Hc.
  - by apply map_lookup_filter_Some.
  - apply map_lookup_filter_None. left. done.
Qed.

Lemma clean_columns_lacks (df : DataFrame) name :
  lacks_column df name -> lacks_column (clean_columns df) name.
Proof.
  intros H. unfold lacks_column, clean_columns in *. rewrite Forall_fmap.
  eapply Forall_impl; [exact H|]. intros [i row] Hrow. simpl in *.
  apply map_lookup_filter_None. by left.
Qed.

(** C6. The location pattern takes "41.88" and "-87.62" out of
    "(41.88, -87.62)"; a row with that location comes out of the
    soft-reject phase with latitude "41.88" and longitude "-87.62", and
    the table, also once reduced to its clean columns, has no location
    column any more. *)
Theorem coordinate_decomposition (df : DataFrame) k i row :
  Forall (has_column df) nullable_fields.*1 ->
  df !! k = Some (i, row) ->
  row !! "location" = Some (Some (Str "(41.88, -87.62)")) ->
  exists df_filt soft_rejects row',
    process_soft_rejects parse_date df = Some (df_filt, soft_rejects)
    /\ Pd.str_extract MY_REGX.LOCATION [Some (Str "(41.88, -87.62)")]
       = [(Some (Str "41.88"), Some (Str "-87.62"))]
    /\ clean_columns df_filt !! k = Some (i, row')
    /\ row' !! "latitude" = Some (Some (Str "41.88"))
    /\ row' !! "longitude" = Some (Some (Str "-87.62"))
    /\ lacks_column df_filt "location"
    /\ lacks_column (clean_columns df_filt) "location".
Proof.
  intros Hcols Hk Hloc.
  destruct (soft_focus parse_date df (take 11 soft_rules) "location" location_rule
              (drop 12 soft_rules) eq_refl Hcols) as (G & sr & Hrun & _ & Hown & HG).
  set (b := negb (forallb id ((mask1 "location" location_rule false ∘ snd) <$> df))) in *.
  assert (Hlat : Forall (fun fe => "latitude" ∉ touched fe)
                        (take 11 soft_rules ++ drop 12 soft_rules)) by by_names.
  assert (Hlon : Forall (fun fe => "longitude" ∉ touched fe)
                        (take 11 soft_rules ++ drop 12 soft_rules)) by by_names.
  assert (Hgone : lacks_column ((fun r : nat * Row => (r.1, G r.2)) <$> df) "location").
  { unfold lacks_column. rewrite Forall_fmap. apply Forall_forall. intros r _. simpl.
    rewrite (HG r.2) by (apply Hown; by left).
    by rewrite row_step_field by by_names. }
  destruct (row_step_generated "location" location_rule false b row _ eq_refl)
    as (row2 & Hstep).
  assert (Hval : final_value location_rule false b (cell_of "location" row)
                 = Some (Str "(41.88, -87.62)")).
  { unfold cell_of. rewrite Hloc. by destruct b. }
  rewrite Hval in Hstep. simpl in Hstep.
  assert (HkG : ((fun r : nat * Row => (r.1, G r.2)) <$> df) !! k = Some (i, G row)).
  { by rewrite list_lookup_fmap, Hk. }
  destruct (clean_columns_lookup _ k i (G row) "latitude" HkG eq_refl)
    as (row' & Hrow' & Hlat').
  destruct (clean_columns_lookup _ k i (G row) "longitude" HkG eq_refl)
    as (row'' & Hrow'' & Hlon').
  rewrite Hrow' in Hrow''. injection Hrow'' as <-.
  exists ((fun r : nat * Row => (r.1, G r.2)) <$> df), sr, row'.
  split; [done|]. split; [by vm_compute|]. split; [done|].
  split; [|split; [|split; [done|by apply clean_columns_lacks]]].
  - rewrite Hlat', (HG row) by done. rewrite Hstep.
    rewrite lookup_delete_ne by done. rewrite lookup_insert_ne by done.
    by rewrite lookup_insert_eq.
  - rewrite Hlon', (HG row) by done. rewrite Hstep.
    rewrite lookup_delete_ne by done. by rewrite lookup_insert_eq.
Qed.


Lemma zip5_not_null (c : cell) v :
  zip5 c = Some v -> exists s, v = Str s /\ String.length s = 5.
Proof.
  destruct c as [[s|d]|]; simpl; try done.
  repeat case_decide; try done; intros [= <-]; eexists; split; try done.
  rewrite length_append. simpl. lia.
Qed.

Lemma zip_to_five_not_null (zips : Series) v :
  Some v ∈ zip_to_five zips -> exists s, v = Str s /\ String.length s = 5.
Proof.
  rewrite zip_to_five_elementwise. intros (c & Hc & _)%list_elem_of_fmap.
  by apply (zip5_not_null c).
Qed.

(** The zip code rule is the last one; what it leaves in a row. *)
Lemma zip_codes_focus (df : DataFrame) :
  Forall (has_column df) nullable_fields.*1 ->
  let any_failed :=
    negb (forallb id ((mask1 "zip_codes" zip_codes_rule false ∘ snd) <$> df)) in
  exists (G : Row -> Row) (soft_rejects : Rejects),
    process_soft_rejects parse_date df
    = Some ((fun r : nat * Row => (r.1, G r.2)) <$> df, soft_rejects)
    /\ rejects_get "zip_codes" soft_rejects = fails "zip_codes" zip_codes_rule false df
    /\ (forall row, G row !! "zip_codes"
                    = Some (final_value zip_codes_rule false any_failed
                                        (cell_of "zip_codes" row)))
    /\ (forall row, G row !! "zip_codes_orig"
                    = if negb any_failed then row !! "zip_codes_orig"
                      else Some (if mask1 "zip_codes" zip_codes_rule false row then None
                                 else cell_of "zip_codes" row)).
Proof.
  intros Hcols any_failed.
  destruct (soft_focus parse_date df (take 12 soft_rules) "zip_codes" zip_codes_rule
              [] eq_refl Hcols) as (G & sr & Hrun & Hrej & Hown & HG).
  exists G, sr. split; [done|]. split; [done|]. split.
  - intros row. rewrite (HG row) by (apply Hown; by left).
    by rewrite row_step_field by by_names.
  - intros row. rewrite (HG row) by (apply Hown; by right).
    rewrite (row_step_shadow "zip_codes") by by_names. simpl.
    fold any_failed. destruct (negb any_failed); [done|].
    f_equal. destruct (mask1 _ _ _ _); [done|].
    unfold replace1. by destruct (cell_of "zip_codes" row) as [[?|?]|].
Qed.

(** C4. Zip-code processing: the pattern refuses "606" and accepts "6060"
    and "60601", and [zip_to_five] turns "6060" into "06060" and leaves
    "60601"; in the soft-reject phase a row with "606" is soft-rejected,
    nulled and kept in the shadow column, a row with "6060" ends with
    "06060" and a row with "60601" with "60601". *)
Theorem zip_normalization (df : DataFrame) k i row :
  Forall (has_column df) nullable_fields.*1 ->
  df !! k = Some (i, row) ->
  exists df_filt soft_rejects row',
    process_soft_rejects parse_date df = Some (df_filt, soft_rejects)
    /\ Pd.str_match MY_REGX.ZIP_CODES None
         [Some (Str "606"); Some (Str "6060"); Some (Str "60601")]
       = [Some false; Some true; Some true]
    /\ zip_to_five [Some (Str "6060"); Some (Str "60601")]
       = [Some (Str "06060"); Some (Str "60601")]
    /\ df_filt !! k = Some (i, row')
    /\ (row !! "zip_codes" = Some (Some (Str "606")) ->
        i ∈ rejects_get "zip_codes" soft_rejects
        /\ row' !! "zip_codes" = Some None
        /\ row' !! "zip_codes_orig" = Some (Some (Str "606")))
    /\ (row !! "zip_codes" = Some (Some (Str "6060")) ->
        row' !! "zip_codes" = Some (Some (Str "06060")))
    /\ (row !! "zip_codes" = Some (Some (Str "60601")) ->
        row' !! "zip_codes" = Some (Some (Str "60601"))).
Proof.
  intros Hcols Hk.
  destruct (zip_codes_focus df Hcols) as (G & sr & Hrun & Hrej & Hzip & Hshadow).
  set (b := negb (forallb id ((mask1 "zip_codes" zip_codes_rule false ∘ snd) <$> df))) in *.
  assert (Hin : (i, row) ∈ df) by (apply list_elem_of_lookup; eauto).
  exists ((fun r : nat * Row => (r.1, G r.2)) <$> df), sr, (G row).
  split; [done|]. split; [by vm_compute|]. split; [by vm_compute|].
  split; [by rewrite list_lookup_fmap, Hk|].
  split; [|split].
  - intros Hv.
    assert (Hm : mask1 "zip_codes" zip_codes_rule false row = false).
    { unfold mask1, cell_of. by rewrite Hv. }
    assert (Hb : b = true) by by apply (any_failed_true _ _ _ df i row).
    split; [|split].
    + rewrite Hrej. apply elem_of_fails. eauto.
    + rewrite Hzip, Hb. unfold cell_of. by rewrite Hv.
    + rewrite Hshadow, Hb, Hm. unfold cell_of. by rewrite Hv.
  - intros Hv. rewrite Hzip. unfold cell_of. rewrite Hv. by destruct b.
  - intros Hv. rewrite Hzip. unfold cell_of. rewrite Hv. by destruct b.
Qed.

(** C10. Whatever [zip_to_five] returns that is not null has exactly five
    characters, and so has every non-null zip code of the cleaned table.
    The text "606010" starts with five digits, so the pattern accepts it:
    its row is not recorded as a soft reject and gets no shadow value, yet
    the post-processing step leaves null in its place. *)
Theorem zip_codes_five_characters (df : DataFrame) :
  Forall (has_column df) nullable_fields.*1 ->
  exists df_filt soft_rejects,
    process_soft_rejects parse_date df = Some (df_filt, soft_rejects)
    /\ (forall zips v,
          Some v ∈ zip_to_five zips -> exists s, v = Str s /\ String.length s = 5)
    /\ (forall i row' v,
          (i, row') ∈ clean_columns df_filt ->
          row' !! "zip_codes" = Some (Some v) ->
          exists s, v = Str s /\ String.length s = 5)
    /\ (forall k i row,
          NoDup (index df) ->
          lacks_column df "zip_codes_orig" ->
          df !! k = Some (i, row) ->
          row !! "zip_codes" = Some (Some (Str "606010")) ->
          Re.matches MY_REGX.ZIP_CODES "606010" = true
          /\ (i ∉ rejects_get "zip_codes" soft_rejects)
          /\ exists row',
               df_filt !! k = Some (i, row')
               /\ row' !! "zip_codes" = Some None
               /\ (row' !! "zip_codes_orig" = None
                   \/ row' !! "zip_codes_orig" = Some None)).
Proof.
  intros Hcols.
  destruct (zip_codes_focus df Hcols) as (G & sr & Hrun & Hrej & Hzip & Hshadow).
  set (b := negb (forallb id ((mask1 "zip_codes" zip_codes_rule false ∘ snd) <$> df))) in *.
  exists ((fun r : nat * Row => (r.1, G r.2)) <$> df), sr.
  split; [done|]. split; [apply zip_to_five_not_null|]. split.
  - intros i row' v Hin Hv. unfold clean_columns in Hin.
    rewrite <- list_fmap_compose in Hin.
    apply list_elem_of_fmap in Hin as ([i0 row] & [= -> ->] & Hin). simpl in Hv.
    apply map_lookup_filter_Some in Hv as [Hv _].
    rewrite Hzip in Hv. injection Hv as Hv.
    unfold final_value in Hv. simpl in Hv. by apply zip5_not_null in Hv.
  - intros k i row Hnd Hlacks Hk Hv.
    assert (Hin : (i, row) ∈ df) by (apply list_elem_of_lookup; eauto).
    assert (Hm : mask1 "zip_codes" zip_codes_rule false row = true).
    { unfold mask1, cell_of. by rewrite Hv. }
    split; [by vm_compute|]. split.
    + rewrite Hrej, (elem_of_fails_row _ _ _ df i row) by done. by rewrite Hm.
    + exists (G row). split; [by rewrite list_lookup_fmap, Hk|]. split.
      * rewrite Hzip. unfold cell_of. rewrite Hv. by destruct b.
      * rewrite Hshadow, Hm. destruct (negb b); [left|by right].
        unfold lacks_column in Hlacks. rewrite Forall_forall in Hlacks.
        apply (Hlacks _ Hin).
Qed.


Lemma replace1_nil (c : cell) : replace1 [] c = c.
Proof.
  destruct c as [[s|d]|]; simpl; done.
Qed.

Lemma soft_rules_tidy :
  Forall (fun fe : string * Rule =>
            (fe.1 ∉ (concat (r_gen fe.2)).*1)
            /\ ((fe.1 +:+ "_orig") ∉ (concat (r_gen fe.2)).*1)
            /\ r_nulls fe.2 = []
            /\ r_drop fe.2 = bool_decide (fe.1 = "location")
            /\ Forall (fun t : cell -> cell => t None = None) (r_post fe.2))
         soft_rules.
Proof.
  unfold soft_rules.
  repeat (apply List.Forall_cons; [|]); try apply List.Forall_nil;
    (split; [by_names|split; [by_names|split; [done|split; [done|]]]]);
    repeat constructor.
Qed.

(** C3, amended. After the soft-reject phase, for every optional field and
    every row: the shadow column of the field holds a value at the row
    exactly when the row is recorded under the field in the soft-reject
    record; in that case the cleaned column is null at the row, except for
    [location], whose column has been dropped from the table. *)
Theorem soft_shadow_invariant (df : DataFrame) :
  NoDup (index df) ->
  Forall (has_column df) nullable_fields.*1 ->
  Forall (fun field => lacks_column df (field +:+ "_orig")) nullable_fields.*1 ->
  exists df_filt soft_rejects,
    process_soft_rejects parse_date df = Some (df_filt, soft_rejects)
    /\ forall field i row',
         field ∈ nullable_fields.*1 ->
         (i, row') ∈ df_filt ->
         ((exists v, row' !! (field +:+ "_orig") = Some (Some v))
          <-> (i ∈ rejects_get field soft_rejects))
         /\ ((i ∈ rejects_get field soft_rejects) ->
             row' !! field = if decide (field = "location") then None else Some None).
Proof.
  intros Hnd Hcols Hlacks.
  destruct (process_soft_rejects parse_date df) as [[df' sr']|] eqn:Hrun0;
    [|by rewrite process_soft_rejects_rows in Hrun0].
  exists df', sr'. split; [done|].
  intros field i row' Hfield Hin.
  assert (Hnames : nullable_fields.*1 = soft_rules.*1) by done.
  assert (Hlack : lacks_column df (field +:+ "_orig")).
  { rewrite Forall_forall in Hlacks. by apply Hlacks. }
  rewrite Hnames in Hfield.
  apply list_elem_of_fmap in Hfield as ([f e] & -> & Hfe). simpl.
  pose proof soft_rules_tidy as Htidy. rewrite Forall_forall in Htidy.
  destruct (Htidy _ Hfe) as (Hg1 & Hg2 & Hnulls & Hdrop & Hpost). simpl in *.
  apply list_elem_of_split in Hfe as (pre & post & Hsplit).
  destruct (soft_focus parse_date df pre f e post Hsplit Hcols)
    as (G & sr & Hrun & Hrej & Hown & HG).
  set (b := negb (forallb id ((mask1 f e false ∘ snd) <$> df))) in *.
  rewrite Hrun0 in Hrun. injection Hrun as -> ->.
  apply list_elem_of_fmap in Hin as ([i0 row] & [= -> ->] & Hin). simpl.
  rewrite (HG row (f +:+ "_orig")) by (apply Hown; by right).
  rewrite (HG row f) by (apply Hown; by left).
  rewrite row_step_shadow, row_step_field by done. simpl.
  rewrite Hrej, (elem_of_fails_row _ _ _ df i0 row) by done.
  unfold lacks_column in Hlack. rewrite Forall_forall in Hlack.
  specialize (Hlack _ Hin). simpl in Hlack.
  destruct b eqn:Hb; simpl.
  - split.
    + unfold mask1. rewrite Hnulls, replace1_nil.
      destruct (cell_of f row) as [c|] eqn:Hc; simpl.
      * destruct (r_ok e (Some c)); split; intros H; try done; [by destruct H|eauto].
      * split; intros H; try done. by destruct H.
    + intros Hm. rewrite Hdrop.
      destruct (decide (f = "location")) as [->|Hne].
      * by rewrite bool_decide_eq_true_2.
      * rewrite bool_decide_eq_false_2 by done. f_equal.
        unfold final_value. fold (mask1 f e false row). rewrite Hm. simpl.
        clear -Hpost. induction Hpost as [|t ts Ht _ IH]; simpl; [done|].
        by rewrite Ht.
  - assert (Hm : mask1 f e false row = true) by by apply (any_failed_false _ _ _ df i0).
    rewrite Hm, Hlack. split; [|done].
    split; intros H; [by destruct H|done].
Qed.


End SoftClaims.

(** ** The hard-reject phase, row by row *)



Lemma dt_astype_str {A} (part : Timestamp -> N) (g : A -> cell) (l : list A) :
  (forall x, x ∈ l -> forall s, g x <> Some (Str s)) ->
  Pd.astype_str <$> Pd.dt part (g <$> l)
  = Some (render (existsb (is_null ∘ g) l) part ∘ g <$> l).
Proof.
  intros Hg. unfold Pd.dt.
  assert (H1 : mapM Pd.the_date (g <$> l) = Some (date_of ∘ g <$> l)).
  { apply mapM_Some. rewrite Forall2_fmap. apply Forall_Forall2_diag, Forall_forall.
    intros x Hx. specialize (Hg x Hx). simpl.
    destruct (g x) as [[s|d]|]; simpl; try done. by destruct (Hg s). }
  rewrite H1. simpl. f_equal.
  destruct (mapM id (date_of ∘ g <$> l)) as [full|] eqn:Hfull; simpl.
  - apply mapM_Some in Hfull. rewrite Forall2_fmap_l in Hfull.
    assert (Hex : existsb (is_null ∘ g) l = false).
    { clear -Hfull. induction Hfull as [|x d l full Hx _ IH]; simpl; [done|].
      rewrite IH. simpl in Hx. by destruct (g x) as [[?|?]|]. }
    rewrite Hex. clear -Hfull.
    induction Hfull as [|x d l full Hx _ IH]; csimpl; [done|].
    f_equal; [|exact IH]. unfold render. simpl in Hx. by rewrite Hx.
  - apply mapM_None in Hfull. rewrite Exists_fmap in Hfull.
    assert (Hex : existsb (is_null ∘ g) l = true).
    { apply existsb_exists. apply Exists_exists in Hfull as (x & Hx & Hnone).
      exists x. split; [by apply list_elem_of_In|].
      specialize (Hg x Hx). simpl in *.
      destruct (g x) as [[s|d]|]; simpl in *; try done. by destruct (Hg s). }
    rewrite Hex. rewrite <- !list_fmap_compose. apply list_fmap_ext.
    intros _ x _. unfold render. simpl. by destruct (date_of (g x)).
Qed.

Section Hard.

Variable parse_date : string -> option Timestamp.






Lemma validate_date p col :
  p_valid_values p = None -> p_validation p = None -> p_date_field p = true ->
  validate parse_date p col = Some ((negb ∘ is_null ∘ to_datetime1 parse_date) <$> col).
Proof.
  intros Hv Hp Hd. unfold validate. rewrite Hv, Hp, Hd. simpl. f_equal.
  unfold to_datetime. rewrite <- list_fmap_compose.
  rewrite <- (length_fmap ((negb ∘ is_null) ∘ to_datetime1 parse_date) col) at 1 2.
  by rewrite !zip_with_andb_true_l.
Qed.

Lemma process_field_date df rejects :
  has_column df "date" ->
  process_field parse_date df "date" rejects true
    (kwargs [date_field true; other_nulls ["0000-00-00"]; generated_cols [date_yr_mo]])
  = Some (date_table parse_date df, rejects_update "date" (fails "date" (date_rule parse_date) true df) rejects).
Proof.
  intros Hcol.
  remember (kwargs [date_field true; other_nulls ["0000-00-00"];
                    generated_cols [date_yr_mo]]) as p eqn:Hp.
  assert (Hnulls : p_other_nulls p = ["0000-00-00"]) by by subst.
  assert (Hdate : p_date_field p = true) by by subst.
  assert (Hpost : p_post_process p = []) by by subst.
  assert (Hgens : p_generated_cols p = [date_yr_mo]) by by subst.
  assert (Hdrop : p_drop_field p = false) by by subst.
  assert (Hvalid : forall col, validate parse_date p col
                               = Some ((negb ∘ is_null ∘ to_datetime1 parse_date) <$> col)).
  { intros col. apply validate_date; by subst. }
  clear Hp.
  unfold process_field. rewrite (column_has _ _ Hcol). simpl.
  rewrite Hvalid, Hnulls, Hdate, Hpost, Hgens, Hdrop. simpl.
  unfold Pd.replace_with_nan, to_datetime. rewrite <- !list_fmap_compose.
  rewrite zip_with_fmap_same, set_column_self. simpl.
  rewrite (column_fmap df _ "date" (parsed_date parse_date ∘ snd)); last first.
  { intros x _. simpl. by rewrite lookup_insert_eq. }
  simpl. unfold date_yr_mo.
  assert (Hnostr : forall x : nat * Row, x ∈ df ->
                   forall s, (parsed_date parse_date ∘ snd) x <> Some (Str s)).
  { intros [i row] _ s. simpl. unfold parsed_date, to_datetime1.
    destruct (replace1 _ _) as [[s'|d]|]; try done. by destruct (parse_date s'). }
  pose proof (dt_astype_str year (parsed_date parse_date ∘ snd) df Hnostr) as Hy.
  pose proof (dt_astype_str month (parsed_date parse_date ∘ snd) df Hnostr) as Hm.
  destruct (Pd.dt year _) as [years|]; [|done].
  destruct (Pd.dt month _) as [months|]; [|done].
  simpl in Hy, Hm. injection Hy as Hy. injection Hm as Hm.
  simpl. rewrite Hy, Hm.
  rewrite (set_column_fmap df _ "year"). simpl.
  rewrite (set_column_fmap df _ "month"). simpl.
  reflexivity.
Qed.


Lemma table_step_check field ok df :
  has_column df field -> table_step field (check ok) true df = df.
Proof.
  intros Hcol. unfold table_step.
  rewrite <- (list_fmap_id df) at 2. apply list_fmap_ext.
  intros k [i row] Hk. simpl. f_equal.
  unfold has_column in Hcol. rewrite Forall_forall in Hcol.
  destruct (Hcol (i, row)) as [c Hc]; [apply list_elem_of_lookup; eauto|].
  simpl in Hc. unfold row_step, row_gens, row_post, cell_of. simpl.
  rewrite Hc. simpl. rewrite replace1_nil. by apply insert_id.
Qed.

Lemma process_field_check df field rejects p ok :
  rule_of parse_date p (check ok) ->
  has_column df field ->
  process_field parse_date df field rejects true p
  = Some (df, rejects_update field (fails field (check ok) true df) rejects).
Proof.
  intros Hrule Hcol.
  rewrite (process_field_rows parse_date _ _ _ _ _ _ Hrule Hcol).
  by rewrite table_step_check.
Qed.

Lemma date_row_other floats (row : Row) name :
  name ∉ ["date"; "year"; "month"] -> date_row parse_date floats row !! name = row !! name.
Proof.
  rewrite !not_elem_of_cons. intros (H1 & H2 & H3 & _).
  unfold date_row. by rewrite !lookup_insert_ne.
Qed.

Lemma date_row_date floats (row : Row) :
  date_row parse_date floats row !! "date" = Some (parsed_date parse_date row).
Proof.
  unfold date_row. rewrite !lookup_insert_ne by done. by rewrite lookup_insert_eq.
Qed.

Lemma date_table_index df : index (date_table parse_date df) = index df.
Proof. unfold date_table. apply index_fmap_row with (f := fun r => date_row parse_date _ r.2). Qed.

Lemma date_table_has_column df name :
  has_column df name -> has_column (date_table parse_date df) name.
Proof.
  intros H. unfold has_column, date_table in *. rewrite Forall_fmap.
  eapply Forall_impl; [exact H|]. intros [i row] Hrow. simpl in *.
  unfold date_row. by repeat apply insert_keeps.
Qed.

Lemma fails_date_table field e df :
  field ∉ ["date"; "year"; "month"] ->
  fails field e true (date_table parse_date df) = fails field e true df.
Proof.
  intros Hf. unfold date_table. apply fails_rows.
  intros row. by apply date_row_other.
Qed.



Lemma perm3 {A} (a b c : A) (l : list A) :
  l ≡ₚ [a; b; c] ->
  l ∈ [[a; b; c]; [a; c; b]; [b; a; c]; [b; c; a]; [c; a; b]; [c; b; a]].
Proof.
  intros H. symmetry in H. apply permutations_Permutation in H.
  vm_compute in H.
  repeat (apply elem_of_cons in H as [->|H]); [..|by apply elem_of_nil in H];
    repeat first [by left|right].
Qed.

(** In whatever order the mandatory fields are processed, the table that
    results and the reject sets are the same. *)
Lemma hard_fields_any_order fields df :
  fields ≡ₚ nonnull_fields ->
  has_column df "id" -> has_column df "case_number" -> has_column df "date" ->
  exists hard_rejects,
    process_fields parse_date true fields df [] = Some (date_table parse_date df, hard_rejects)
    /\ hard_rejects ≡ₚ hard_sets parse_date df.
Proof.
  intros Hperm Hid Hcn Hdate.
  pose proof (date_table_has_column df _ Hid) as Hid'.
  pose proof (date_table_has_column df _ Hcn) as Hcn'.
  assert (Hfid : fails "id" (check id_ok) true (date_table parse_date df)
                 = fails "id" (check id_ok) true df).
  { apply fails_date_table. by_names. }
  assert (Hfcn : fails "case_number" (check case_number_ok) true (date_table parse_date df)
                 = fails "case_number" (check case_number_ok) true df).
  { apply fails_date_table. by_names. }
  apply perm3 in Hperm.
  repeat (apply elem_of_cons in Hperm as [->|Hperm]); [..|by apply elem_of_nil in Hperm];
    simpl;
    repeat first
      [ rewrite (process_field_check _ "id" _ _ id_ok (rule_of_id parse_date)) by done
      | rewrite (process_field_check _ "case_number" _ _ case_number_ok
                   (rule_of_case_number parse_date)) by done
      | rewrite process_field_date by done
      | progress simpl ];
    rewrite ?Hfid, ?Hfcn; (eexists; split; [reflexivity|]); unfold hard_sets; simpl.
  - done.
  - apply perm_skip, perm_swap.
  - apply perm_swap.
  - etransitivity; [apply perm_skip, perm_swap|apply perm_swap].
  - etransitivity; [apply perm_swap|apply perm_skip, perm_swap].
  - etransitivity; [apply perm_swap|].
    etransitivity; [apply perm_skip, perm_swap|apply perm_swap].
Qed.


Lemma hard_fields_source_order df :
  has_column df "id" -> has_column df "case_number" -> has_column df "date" ->
  process_fields parse_date true nonnull_fields df [] = Some (date_table parse_date df, hard_sets parse_date df).
Proof.
  intros Hid Hcn Hdate. simpl.
  rewrite (process_field_check _ "id" _ _ id_ok (rule_of_id parse_date)) by done.
  simpl.
  rewrite (process_field_check _ "case_number" _ _ case_number_ok
             (rule_of_case_number parse_date)) by done.
  simpl. by rewrite process_field_date by done.
Qed.

Lemma drop_index_empty (df : DataFrame) : drop_index ∅ df = df.
Proof.
  unfold drop_index. induction df as [|r df IH]; [done|].
  rewrite filter_cons_True by (by apply not_elem_of_empty). by rewrite IH.
Qed.

Lemma drop_index_drop_index ids1 ids2 (df : DataFrame) :
  drop_index ids2 (drop_index ids1 df) = drop_index (ids1 ∪ ids2) df.
Proof.
  unfold drop_index. rewrite list_filter_filter.
  apply list_filter_iff. intros [i row]. simpl.
  rewrite elem_of_union. tauto.
Qed.

(** The removal loop, one reject set after the other, removes exactly the
    union of the sets. *)
Lemma filter_hard_rejects_union (df : DataFrame) (hard_rejects : Rejects) :
  filter_hard_rejects df hard_rejects = drop_index (all_ids hard_rejects) df.
Proof.
  unfold filter_hard_rejects, all_ids.
  revert df. induction hard_rejects as [|[f ids] rest IH]; intros df; simpl.
  - by rewrite drop_index_empty.
  - rewrite IH. case_decide as Hsize.
    + apply drop_index_drop_index.
    + assert (ids = ∅) as ->.
      { apply leibniz_equiv, size_empty_inv. lia. }
      by rewrite (left_id_L ∅ (∪)).
Qed.

Lemma index_drop_index ids (df : DataFrame) :
  index (drop_index ids df) = filter (fun i => i ∉ ids) (index df).
Proof.
  unfold index, drop_index. induction df as [|[i row] df IH]; [done|].
  rewrite fmap_cons. simpl.
  destruct (decide (i ∉ ids)).
  - rewrite !filter_cons_True by done. rewrite fmap_cons. simpl. by rewrite IH.
  - by rewrite !filter_cons_False by done.
Qed.

Lemma drop_index_has_column ids (df : DataFrame) name :
  has_column df name -> has_column (drop_index ids df) name.
Proof.
  unfold has_column, drop_index. rewrite !Forall_forall.
  intros H r Hr. apply list_elem_of_filter in Hr as [_ Hr]. by apply H.
Qed.

Lemma process_hard_rejects_eq df :
  has_column df "id" -> has_column df "case_number" -> has_column df "date" ->
  process_hard_rejects parse_date df
  = Some (drop_index (all_ids (hard_sets parse_date df)) (date_table parse_date df), hard_sets parse_date df).
Proof.
  intros Hid Hcn Hdate. unfold process_hard_rejects.
  rewrite hard_fields_source_order by done.
  exact (f_equal (fun t => Some (t, hard_sets parse_date df))
                 (filter_hard_rejects_union (date_table parse_date df) (hard_sets parse_date df))).
Qed.


(** *** The claims about the hard-reject phase *)

Lemma all_ids_perm (hr hr' : Rejects) : hr ≡ₚ hr' -> all_ids hr = all_ids hr'.
Proof.
  intros Hp. apply set_eq. intros i. unfold all_ids.
  rewrite !elem_of_union_list. by setoid_rewrite Hp.
Qed.

Lemma rejects_get_all_ids field (hr : Rejects) i :
  i ∈ rejects_get field hr -> i ∈ all_ids hr.
Proof.
  unfold all_ids. induction hr as [|[f s] rest IH]; simpl; [by intros ?%not_elem_of_empty|].
  rewrite elem_of_union. destruct (decide (f = field)); auto.
Qed.

Lemma not_in_drop_index ids (df : DataFrame) i :
  i ∈ ids -> i ∉ index (drop_index ids df).
Proof.
  intros Hi. rewrite index_drop_index. rewrite list_elem_of_filter. tauto.
Qed.

(** C2. The reject set of every mandatory field is read off the whole
    unfiltered table; the removal loop gives the table that a single
    removal of the union of the sets gives; and the filtered table is the
    same in whatever order the fields are processed. *)
Theorem hard_removal_is_union (df : DataFrame) :
  has_column df "id" -> has_column df "case_number" -> has_column df "date" ->
  exists df_filt,
    process_hard_rejects parse_date df = Some (df_filt, hard_sets parse_date df)
    /\ (forall field e i,
          (field, e) ∈ hard_rules parse_date ->
          i ∈ rejects_get field (hard_sets parse_date df)
          <-> exists row, (i, row) ∈ df /\ mask1 field e true row = false)
    /\ forall fields,
         fields ≡ₚ nonnull_fields ->
         exists df_all hard_rejects,
           process_fields parse_date true fields df [] = Some (df_all, hard_rejects)
           /\ index df_all = index df
           /\ hard_rejects ≡ₚ hard_sets parse_date df
           /\ filter_hard_rejects df_all hard_rejects
              = drop_index (all_ids hard_rejects) df_all
           /\ filter_hard_rejects df_all hard_rejects = df_filt.
Proof.
  intros Hid Hcn Hdate.
  exists (drop_index (all_ids (hard_sets parse_date df)) (date_table parse_date df)).
  split; [by apply process_hard_rejects_eq|]. split.
  - intros field e i Hfe. unfold hard_rules in Hfe.
    repeat (apply elem_of_cons in Hfe as [[= -> ->]|Hfe]);
      [..|by apply elem_of_nil in Hfe]; simpl; apply elem_of_fails.
  - intros fields Hperm.
    destruct (hard_fields_any_order fields df Hperm Hid Hcn Hdate) as (hr & Hrun & Hhr).
    exists (date_table parse_date df), hr. split; [done|].
    split; [apply date_table_index|]. split; [done|].
    split; [apply filter_hard_rejects_union|].
    by rewrite filter_hard_rejects_union, (all_ids_perm _ _ Hhr).
Qed.

(** C5. The value "HY123456" passes the case_number rule.  The value
    "123456" fails it: its row is recorded under case_number in the
    hard-reject record and is not in the filtered table. *)
Theorem case_number_rule (df : DataFrame) :
  has_column df "id" -> has_column df "case_number" -> has_column df "date" ->
  exists df_filt hard_rejects,
    process_hard_rejects parse_date df = Some (df_filt, hard_rejects)
    /\ case_number_val [Some (Str "HY123456")] = [Some true]
    /\ case_number_val [Some (Str "123456")] = [Some false]
    /\ (forall i row,
          NoDup (index df) -> (i, row) ∈ df ->
          row !! "case_number" = Some (Some (Str "HY123456")) ->
          i ∉ rejects_get "case_number" hard_rejects)
    /\ (forall i row,
          (i, row) ∈ df ->
          row !! "case_number" = Some (Some (Str "123456")) ->
          i ∈ rejects_get "case_number" hard_rejects /\ i ∉ index df_filt).
Proof.
  intros Hid Hcn Hdate.
  exists (drop_index (all_ids (hard_sets parse_date df)) (date_table parse_date df)), (hard_sets parse_date df).
  split; [by apply process_hard_rejects_eq|].
  split; [by vm_compute|]. split; [by vm_compute|]. split.
  - intros i row Hnd Hin Hv. simpl.
    rewrite (elem_of_fails_row _ _ _ df i row) by done.
    unfold mask1, cell_of. rewrite Hv. by vm_compute.
  - intros i row Hin Hv.
    assert (Hi : i ∈ rejects_get "case_number" (hard_sets parse_date df)).
    { simpl. apply elem_of_fails. exists row. split; [done|].
      unfold mask1, cell_of. rewrite Hv. by vm_compute. }
    split; [done|].
    by eapply not_in_drop_index, rejects_get_all_ids.
Qed.




Lemma fails_empty field e mandatory (df : DataFrame) :
  (forall i row, (i, row) ∈ df -> mask1 field e mandatory row = true) ->
  fails field e mandatory df = ∅.
Proof.
  intros H. apply set_eq. intros i. rewrite elem_of_fails. split.
  - intros (row & Hin & Hm). rewrite (H i row Hin) in Hm. done.
  - by intros ?%not_elem_of_empty.
Qed.

Lemma hard_survivor_passes (df : DataFrame) i row1 field e :
  (field, e) ∈ hard_rules parse_date ->
  (i, row1) ∈ drop_index (all_ids (hard_sets parse_date df)) (date_table parse_date df) ->
  mask1 field e true row1 = true.
Proof.
  intros Hfe Hin. unfold drop_index in Hin.
  apply list_elem_of_filter in Hin as [Hi Hin]. simpl in Hi.
  unfold date_table in Hin.
  apply list_elem_of_fmap in Hin as ([i0 row] & [= -> ->] & Hin). simpl.
  set (floats := existsb (is_null ∘ (parsed_date parse_date ∘ snd)) df).
  assert (Hpass : mask1 field e true row = true).
  { destruct (mask1 field e true row) eqn:Hm; [done|]. destruct Hi.
    apply (rejects_get_all_ids field).
    unfold hard_rules in Hfe.
    repeat (apply elem_of_cons in Hfe as [[= -> ->]|Hfe]);
      [..|by apply elem_of_nil in Hfe]; simpl; apply elem_of_fails; eauto. }
  unfold hard_rules in Hfe.
  repeat (apply elem_of_cons in Hfe as [[= -> ->]|Hfe]);
    [..|by apply elem_of_nil in Hfe].
  - unfold mask1, cell_of in *. by rewrite date_row_other by by_names.
  - unfold mask1, cell_of in *. by rewrite date_row_other by by_names.
  - unfold mask1, cell_of in *. rewrite date_row_date. simpl in *.
    unfold parsed_date, cell_of.
    destruct (replace1 _ (default None (row !! "date"))) as [[s|d]|]; simpl in *;
      try done.
    by destruct (parse_date s).
Qed.

(** C7. Run on the table it has filtered, the hard-reject phase finds no
    reject for any field and removes no row. *)
Theorem hard_rejects_idempotent (df : DataFrame) :
  has_column df "id" -> has_column df "case_number" -> has_column df "date" ->
  exists df_filt hard_rejects df_again rejects_again,
    process_hard_rejects parse_date df = Some (df_filt, hard_rejects)
    /\ process_hard_rejects parse_date df_filt = Some (df_again, rejects_again)
    /\ Forall (fun item : string * gset nat => item.2 = ∅) rejects_again
    /\ index df_again = index df_filt.
Proof.
  intros Hid Hcn Hdate.
  set (df1 := drop_index (all_ids (hard_sets parse_date df)) (date_table parse_date df)).
  assert (Hempty : forall field e, (field, e) ∈ hard_rules parse_date ->
                                   fails field e true df1 = ∅).
  { intros field e Hfe. apply fails_empty. intros i row1 Hin.
    by apply (hard_survivor_passes df i). }
  assert (Hsets : hard_sets parse_date df1 = [("id", ∅); ("case_number", ∅); ("date", ∅)]).
  { unfold hard_sets, hard_rules. simpl.
    rewrite !Hempty; [done|unfold hard_rules; set_solver..]. }
  exists df1, (hard_sets parse_date df),
         (drop_index (all_ids (hard_sets parse_date df1)) (date_table parse_date df1)), (hard_sets parse_date df1).
  split; [by apply process_hard_rejects_eq|]. split.
  { apply process_hard_rejects_eq;
      by apply drop_index_has_column, date_table_has_column. }
  rewrite Hsets. split; [by repeat constructor|].
  assert (all_ids [("id", ∅); ("case_number", ∅); ("date", ∅)] = (∅ : gset nat)) as ->.
  { unfold all_ids. simpl. by rewrite !(left_id_L ∅ (∪)). }
  by rewrite drop_index_empty, date_table_index.
Qed.


Lemma reject_df_index (df : DataFrame) unq file :
  file_index <$> reject_df df unq file = filter (fun i => i ∈ dom unq) (index df).
Proof.
  unfold reject_df, index. induction df as [|[i row] df IH]; [done|].
  csimpl. destruct (unq !! i) as [cs|] eqn:Hi; csimpl.
  - rewrite filter_cons_True by (apply elem_of_dom; eauto).
    by rewrite <- IH.
  - rewrite filter_cons_False; [done|].
    rewrite elem_of_dom, Hi. by intros [? ?].
Qed.

Lemma dom_unique_rejects (rejects : Rejects) :
  dom (unique_rejects rejects) = all_ids rejects.
Proof.
  unfold unique_rejects. rewrite dom_list_to_map_L, <- list_fmap_compose.
  rewrite (list_fmap_ext _ id (elements (all_ids rejects))) by done.
  by rewrite list_fmap_id, list_to_set_elements_L.
Qed.

Lemma clean_columns_index (df : DataFrame) : index (clean_columns df) = index df.
Proof. unfold clean_columns. apply index_fmap_row with (f := fun r => filter _ r.2). Qed.

(** C1. Every row of the table that is loaded ends in exactly one of the
    clean table and the hard-reject report. *)
Theorem hard_partition (df : DataFrame) (file : string) :
  Forall (has_column df) keep_cols ->
  exists clean hard_rej_df soft_rej_df,
    scrub parse_date df file = Some (clean, hard_rej_df, soft_rej_df)
    /\ index df ≡ₚ index clean ++ (file_index <$> hard_rej_df)
    /\ forall i, i ∈ index df ->
         (i ∈ index clean /\ i ∉ (file_index <$> hard_rej_df))
         \/ ((i ∉ index clean) /\ i ∈ (file_index <$> hard_rej_df)).
Proof.
  intros Hcols.
  assert (Hcol : forall name, name ∈ keep_cols -> has_column df name).
  { by apply Forall_forall. }
  set (df1 := drop_index (all_ids (hard_sets parse_date df)) (date_table parse_date df)).
  assert (Hsoft : Forall (has_column df1) nullable_fields.*1).
  { apply Forall_forall. intros name Hname.
    apply drop_index_has_column, date_table_has_column, Hcol.
    revert name Hname. apply Forall_forall. by_names. }
  unfold scrub.
  rewrite process_hard_rejects_eq by (apply Hcol; by_names).
  simpl. fold df1. rewrite process_soft_rejects_rows by done.
  destruct (run_rules false soft_rules df1 []) as [df2 sr] eqn:Hrun. simpl.
  do 3 eexists. split; [reflexivity|].
  assert (Hidx : index (clean_columns df2) = filter (fun i => i ∉ all_ids (hard_sets parse_date df)) (index df)).
  { rewrite clean_columns_index.
    pose proof (run_rules_index false soft_rules df1 []) as H. rewrite Hrun in H.
    simpl in H. rewrite H. unfold df1.
    by rewrite index_drop_index, date_table_index. }
  rewrite Hidx, reject_df_index, dom_unique_rejects.
  split.
  - rewrite (comm (++)). symmetry. apply filter_app_complement.
  - intros i Hi. rewrite !list_elem_of_filter.
    destruct (decide (i ∈ all_ids (hard_sets parse_date df))); [right|left]; tauto.
Qed.


End Hard.

(** ** The tables as objects *)

Section HeapClaims.

Variable parse_date : string -> option Timestamp.

Lemma heap_process_fields mandatory fields (st : gmap nat DataFrame) l table rejects
    table' rejects' :
  st !! l = Some table ->
  process_fields parse_date mandatory fields table rejects = Some (table', rejects') ->
  Heap.process_fields parse_date mandatory fields st l rejects
  = Some (<[l := table']> st, rejects').
Proof.
  revert st table rejects.
  induction fields as [|[f p] fields IH]; intros st table rejects Hl Hrun; simpl in *.
  - injection Hrun as <- <-. by rewrite insert_id.
  - unfold Heap.process_field. rewrite Hl. simpl.
    destruct (process_field parse_date table f rejects mandatory p)
      as [[table1 rejects1]|]; simpl in *; [|done].
    rewrite (IH (<[l := table1]> st) table1 rejects1); [|by rewrite lookup_insert_eq|done].
    by rewrite insert_insert_eq.
Qed.

Lemma heap_filter_hard_rejects (st : gmap nat DataFrame) l table hard_rejects :
  st !! l = Some table ->
  exists st' l',
    Heap.filter_hard_rejects st l hard_rejects = Some (st', l')
    /\ st' !! l' = Some (filter_hard_rejects table hard_rejects)
    /\ (l' = l \/ st !! l' = None)
    /\ (forall a, is_Some (st !! a) -> st' !! a = st !! a).
Proof.
  revert st l table.
  induction hard_rejects as [|[f ids] rest IH]; intros st l table Hl; simpl.
  - exists st, l. auto.
  - case_decide as Hsize; [|by apply IH].
    rewrite Hl. simpl.
    set (l1 := fresh (dom st)).
    assert (Hfresh : st !! l1 = None).
    { apply not_elem_of_dom, is_fresh. }
    destruct (IH (<[l1 := drop_index ids table]> st) l1 (drop_index ids table))
      as (st' & l' & Hrun & Hres & Hl' & Hold); [by rewrite lookup_insert_eq|].
    exists st', l'. split; [done|]. split; [done|]. split.
    { right. destruct Hl' as [->|Hl']; [done|].
      apply lookup_insert_None in Hl'. tauto. }
    intros a Ha. rewrite Hold.
    + apply lookup_insert_ne. intros <-. rewrite Hfresh in Ha. by destruct Ha.
    + rewrite lookup_insert_is_Some. destruct (decide (l1 = a)); auto.
Qed.

(** C9, amended. The hard-reject phase works on a copy of the table that
    was loaded and returns a new table: the loaded table, like every table
    there was, is left as it was.  The soft-reject phase changes the table
    it is given in place. *)
Theorem phases_and_the_loaded_table (st : gmap nat DataFrame) df table :
  st !! df = Some table ->
  (forall filtered hard_rejects,
     process_hard_rejects parse_date table = Some (filtered, hard_rejects) ->
     exists st' df_filt,
       Heap.process_hard_rejects parse_date st df = Some (st', df_filt, hard_rejects)
       /\ df_filt <> df
       /\ st' !! df = Some table
       /\ (forall a, is_Some (st !! a) -> st' !! a = st !! a)
       /\ st' !! df_filt = Some filtered)
  /\ (forall cleaned soft_rejects,
        process_soft_rejects parse_date table = Some (cleaned, soft_rejects) ->
        Heap.process_soft_rejects parse_date st df
        = Some (<[df := cleaned]> st, soft_rejects)).
Proof.
  intros Hdf. split.
  - intros filtered hr Hrun. unfold process_hard_rejects in Hrun.
    destruct (process_fields parse_date true nonnull_fields table [])
      as [[table1 hr1]|] eqn:Hfields; [|done].
    injection Hrun as <- <-.
    set (l0 := fresh (dom st)).
    assert (Hfresh : st !! l0 = None) by apply not_elem_of_dom, is_fresh.
    assert (Hne : l0 <> df) by (intros ->; by rewrite Hdf in Hfresh).
    pose proof (heap_process_fields true nonnull_fields (<[l0 := table]> st) l0
                  table [] table1 hr1 (lookup_insert_eq _ _ _) Hfields) as Hrun.
    rewrite insert_insert_eq in Hrun.
    destruct (heap_filter_hard_rejects (<[l0 := table1]> st) l0 table1 hr1)
      as (st' & l' & Hfilter & Hres & Hl' & Hold); [by rewrite lookup_insert_eq|].
    exists st', l'.
    assert (Hkeep : forall a, is_Some (st !! a) -> st' !! a = st !! a).
    { intros a Ha. rewrite Hold.
      - apply lookup_insert_ne. intros <-. rewrite Hfresh in Ha. by destruct Ha.
      - rewrite lookup_insert_is_Some. destruct (decide (l0 = a)); auto. }
    split; [|split; [|split; [|split]]].
    + change (Heap.process_hard_rejects parse_date st df) with
        (table0 ← st !! df;
         let '(st0, df_filt) := Heap.alloc st table0 in
         '(st1, hard_rejects) ←
           Heap.process_fields parse_date true nonnull_fields st0 df_filt [];
         '(st2, df_filt) ← Heap.filter_hard_rejects st1 df_filt hard_rejects;
         Some (st2, df_filt, hard_rejects)).
      rewrite Hdf. unfold Heap.alloc. fold l0.
      change (Some table ≫= _) with
        ('(st1, hard_rejects) ←
           Heap.process_fields parse_date true nonnull_fields (<[l0 := table]> st) l0 [];
         '(st2, df_filt) ← Heap.filter_hard_rejects st1 l0 hard_rejects;
         Some (st2, df_filt, hard_rejects)).
      rewrite Hrun.
      change (Some (<[l0:=table1]> st, hr1) ≫= _) with
        ('(st2, df_filt) ← Heap.filter_hard_rejects (<[l0:=table1]> st) l0 hr1;
         Some (st2, df_filt, hr1)).
      by rewrite Hfilter.
    + destruct Hl' as [->|Hl']; [done|].
      intros ->. apply lookup_insert_None in Hl' as [Hl' _]. by rewrite Hdf in Hl'.
    + rewrite Hkeep; eauto.
    + done.
    + done.
  - intros cleaned sr Hrun. unfold Heap.process_soft_rejects.
    by apply (heap_process_fields false nullable_fields st df table []).
Qed.

End HeapClaims.

(** * The claims on the sample table *)

Ltac by_columns :=
  repeat first
    [ apply List.Forall_cons
    | apply List.Forall_nil
    | by (eexists; vm_compute; reflexivity)
    | by (vm_compute; reflexivity) ].

Lemma example_has_columns : Forall (has_column example_table) keep_cols.
Proof. unfold keep_cols, has_column, example_table. by_columns. Defined.

Lemma example_has_optional : Forall (has_column example_table) nullable_fields.*1.
Proof. unfold has_column, example_table. simpl. by_columns. Defined.

Lemma example_mandatory :
  has_column example_table "id" /\ has_column example_table "case_number"
  /\ has_column example_table "date".
Proof. unfold has_column, example_table. repeat split; by_columns. Defined.

Lemma example_lacks_shadows :
  Forall (fun field => lacks_column example_table (field +:+ "_orig"))
         nullable_fields.*1.
Proof. unfold lacks_column, example_table. simpl. by_columns. Defined.

Lemma example_index_NoDup : NoDup (index example_table).
Proof. apply (bool_decide_unpack _). vm_compute. exact I. Defined.

(** The sample table has the sixteen columns, and it is partitioned. *)
Lemma hard_partition_witness :
  Forall (has_column example_table) keep_cols
  /\ exists clean hard_rej_df soft_rej_df,
       scrub sample_parse_date example_table "crimes_001.csv"
       = Some (clean, hard_rej_df, soft_rej_df)
       /\ index example_table ≡ₚ index clean ++ (file_index <$> hard_rej_df)
       /\ forall i, i ∈ index example_table ->
            (i ∈ index clean /\ i ∉ (file_index <$> hard_rej_df))
            \/ ((i ∉ index clean) /\ i ∈ (file_index <$> hard_rej_df)).
Proof.
  split; [exact example_has_columns|].
  apply (hard_partition sample_parse_date example_table "crimes_001.csv").
  exact example_has_columns.
Defined.

Lemma hard_removal_is_union_witness :
  has_column example_table "id"
  /\ has_column example_table "case_number"
  /\ has_column example_table "date"
  /\ exists df_filt,
       process_hard_rejects sample_parse_date example_table
       = Some (df_filt, hard_sets sample_parse_date example_table)
       /\ (forall field e i,
             (field, e) ∈ hard_rules sample_parse_date ->
             i ∈ rejects_get field (hard_sets sample_parse_date example_table)
             <-> exists row, (i, row) ∈ example_table /\ mask1 field e true row = false)
       /\ forall fields,
            fields ≡ₚ nonnull_fields ->
            exists df_all hard_rejects,
              process_fields sample_parse_date true fields example_table []
              = Some (df_all, hard_rejects)
              /\ index df_all = index example_table
              /\ hard_rejects ≡ₚ hard_sets sample_parse_date example_table
              /\ filter_hard_rejects df_all hard_rejects
                 = drop_index (all_ids hard_rejects) df_all
              /\ filter_hard_rejects df_all hard_rejects = df_filt.
Proof.
  destruct example_mandatory as (H1 & H2 & H3).
  split; [exact H1|]. split; [exact H2|]. split; [exact H3|].
  exact (hard_removal_is_union sample_parse_date example_table H1 H2 H3).
Defined.

(** C3 as it is stated fails on the sample table: row 3 is recorded under
    location and has its shadow value, but the table has no location column
    left that could be null. *)
Lemma shadow_invariant_location_dropped :
  exists df_filt soft_rejects row',
    process_soft_rejects sample_parse_date example_table
    = Some (df_filt, soft_rejects)
    /\ "location" ∈ nullable_fields.*1
    /\ (3, row') ∈ df_filt
    /\ 3 ∈ rejects_get "location" soft_rejects
    /\ row' !! "location_orig" = Some (Some (Str "(41.77 -87.66)"))
    /\ row' !! "location" = None
    /\ ~ ((3 ∈ rejects_get "location" soft_rejects) ->
          row' !! "location" = Some None).
Proof.
  assert (Hrun : match process_soft_rejects sample_parse_date example_table with
                 | Some (df_filt, soft_rejects) =>
                     match df_filt !! 3 with
                     | Some (i, row') =>
                         bool_decide (i = 3)
                         && bool_decide (3 ∈ rejects_get "location" soft_rejects)
                         && bool_decide (row' !! "location_orig"
                                         = Some (Some (Str "(41.77 -87.66)")))
                         && bool_decide (row' !! "location" = None)
                     | None => false
                     end
                 | None => false
                 end = true) by (vm_compute; reflexivity).
  destruct (process_soft_rejects sample_parse_date example_table)
    as [[df_filt soft_rejects]|]; [|discriminate Hrun].
  destruct (df_filt !! 3) as [[i row']|] eqn:Hrow; [|discriminate Hrun].
  apply andb_prop in Hrun as [Hrun Hloc]. apply andb_prop in Hrun as [Hrun Horig].
  apply andb_prop in Hrun as [Hi Hrej].
  apply bool_decide_eq_true in Hi. apply bool_decide_eq_true in Hrej.
  apply bool_decide_eq_true in Horig. apply bool_decide_eq_true in Hloc.
  subst i. exists df_filt, soft_rejects, row'.
  split; [reflexivity|]. split; [by_names|].
  split; [apply list_elem_of_lookup; by exists 3|].
  split; [exact Hrej|]. split; [exact Horig|]. split; [exact Hloc|].
  intros Hnull. specialize (Hnull Hrej). rewrite Hloc in Hnull. discriminate Hnull.
Qed.

Lemma soft_shadow_invariant_witness :
  NoDup (index example_table)
  /\ Forall (has_column example_table) nullable_fields.*1
  /\ Forall (fun field => lacks_column example_table (field +:+ "_orig"))
            nullable_fields.*1
  /\ exists df_filt soft_rejects,
       process_soft_rejects sample_parse_date example_table
       = Some (df_filt, soft_rejects)
       /\ forall field i row',
            field ∈ nullable_fields.*1 ->
            (i, row') ∈ df_filt ->
            ((exists v, row' !! (field +:+ "_orig") = Some (Some v))
             <-> (i ∈ rejects_get field soft_rejects))
            /\ ((i ∈ rejects_get field soft_rejects) ->
                row' !! field = if decide (field = "location") then None else Some None).
Proof.
  split; [exact example_index_NoDup|].
  split; [exact example_has_optional|].
  split; [exact example_lacks_shadows|].
  exact (soft_shadow_invariant sample_parse_date example_table
           example_index_NoDup example_has_optional example_lacks_shadows).
Defined.

Lemma zip_normalization_witness :
  Forall (has_column example_table) nullable_fields.*1
  /\ example_table !! 3 = Some (3, example_soft_row)
  /\ exists df_filt soft_rejects row',
       process_soft_rejects sample_parse_date example_table
       = Some (df_filt, soft_rejects)
       /\ Pd.str_match MY_REGX.ZIP_CODES None
            [Some (Str "606"); Some (Str "6060"); Some (Str "60601")]
          = [Some false; Some true; Some true]
       /\ zip_to_five [Some (Str "6060"); Some (Str "60601")]
          = [Some (Str "06060"); Some (Str "60601")]
       /\ df_filt !! 3 = Some (3, row')
       /\ (example_soft_row !! "zip_codes" = Some (Some (Str "606")) ->
           3 ∈ rejects_get "zip_codes" soft_rejects
           /\ row' !! "zip_codes" = Some None
           /\ row' !! "zip_codes_orig" = Some (Some (Str "606")))
       /\ (example_soft_row !! "zip_codes" = Some (Some (Str "6060")) ->
           row' !! "zip_codes" = Some (Some (Str "06060")))
       /\ (example_soft_row !! "zip_codes" = Some (Some (Str "60601")) ->
           row' !! "zip_codes" = Some (Some (Str "60601"))).
Proof.
  split; [exact example_has_optional|]. split; [reflexivity|].
  apply (zip_normalization sample_parse_date example_table 3 3 example_soft_row).
  - exact example_has_optional.
  - reflexivity.
Defined.

Lemma case_number_rule_witness :
  has_column example_table "id" /\ has_column example_table "case_number"
  /\ has_column example_table "date"
  /\ exists df_filt hard_rejects,
       process_hard_rejects sample_parse_date example_table
       = Some (df_filt, hard_rejects)
       /\ case_number_val [Some (Str "HY123456")] = [Some true]
       /\ case_number_val [Some (Str "123456")] = [Some false]
       /\ (forall i row,
             NoDup (index example_table) -> (i, row) ∈ example_table ->
             row !! "case_number" = Some (Some (Str "HY123456")) ->
             i ∉ rejects_get "case_number" hard_rejects)
       /\ (forall i row,
             (i, row) ∈ example_table ->
             row !! "case_number" = Some (Some (Str "123456")) ->
             i ∈ rejects_get "case_number" hard_rejects /\ i ∉ index df_filt).
Proof.
  destruct example_mandatory as (H1 & H2 & H3).
  split; [exact H1|]. split; [exact H2|]. split; [exact H3|].
  exact (case_number_rule sample_parse_date example_table H1 H2 H3).
Defined.

Lemma coordinate_decomposition_witness :
  Forall (has_column example_table) nullable_fields.*1
  /\ example_table !! 0 = Some (0, example_clean_row)
  /\ example_clean_row !! "location" = Some (Some (Str "(41.88, -87.62)"))
  /\ exists df_filt soft_rejects row',
       process_soft_rejects sample_parse_date example_table
       = Some (df_filt, soft_rejects)
       /\ Pd.str_extract MY_REGX.LOCATION [Some (Str "(41.88, -87.62)")]
          = [(Some (Str "41.88"), Some (Str "-87.62"))]
       /\ clean_columns df_filt !! 0 = Some (0, row')
       /\ row' !! "latitude" = Some (Some (Str "41.88"))
       /\ row' !! "longitude" = Some (Some (Str "-87.62"))
       /\ lacks_column df_filt "location"
       /\ lacks_column (clean_columns df_filt) "location".
Proof.
  split; [exact example_has_optional|]. split; [reflexivity|].
  split; [vm_compute; reflexivity|].
  apply (coordinate_decomposition sample_parse_date example_table 0 0 example_clean_row).
  - exact example_has_optional.
  - reflexivity.
  - vm_compute. reflexivity.
Defined.

Lemma hard_rejects_idempotent_witness :
  has_column example_table "id" /\ has_column example_table "case_number"
  /\ has_column example_table "date"
  /\ exists df_filt hard_rejects df_again rejects_again,
       process_hard_rejects sample_parse_date example_table
       = Some (df_filt, hard_rejects)
       /\ process_hard_rejects sample_parse_date df_filt
          = Some (df_again, rejects_again)
       /\ Forall (fun item : string * gset nat => item.2 = ∅) rejects_again
       /\ index df_again = index df_filt.
Proof.
  destruct example_mandatory as (H1 & H2 & H3).
  split; [exact H1|]. split; [exact H2|]. split; [exact H3|].
  exact (hard_rejects_idempotent sample_parse_date example_table H1 H2 H3).
Defined.


(** C9 as it is stated fails on the sample table: the hard-reject phase
    returns a table at a new address, two rows shorter, and the table that
    was loaded is what it was. *)
Lemma hard_phase_leaves_the_loaded_table :
  exists st' df_filt hard_rejects filtered,
    Heap.process_hard_rejects sample_parse_date {[0 := example_table]} 0
    = Some (st', df_filt, hard_rejects)
    /\ df_filt <> 0
    /\ st' !! 0 = Some example_table
    /\ st' !! df_filt = Some filtered
    /\ index filtered = [0; 3]
    /\ st' !! 0 <> st' !! df_filt.
Proof.
  assert (Hrun : match Heap.process_hard_rejects sample_parse_date
                         {[0 := example_table]} 0 with
                 | Some (st', df_filt, hard_rejects) =>
                     match st' !! df_filt with
                     | Some filtered =>
                         bool_decide (df_filt <> 0)
                         && bool_decide (st' !! 0 = Some example_table)
                         && bool_decide (index filtered = [0; 3])
                     | None => false
                     end
                 | None => false
                 end = true) by (vm_compute; reflexivity).
  destruct (Heap.process_hard_rejects sample_parse_date {[0 := example_table]} 0)
    as [[[st' df_filt] hard_rejects]|]; [|discriminate Hrun].
  destruct (st' !! df_filt) as [filtered|] eqn:Hfiltered; [|discriminate Hrun].
  apply andb_prop in Hrun as [Hrun Hindex]. apply andb_prop in Hrun as [Hne Hloaded].
  apply bool_decide_eq_true in Hne. apply bool_decide_eq_true in Hloaded.
  apply bool_decide_eq_true in Hindex.
  exists st', df_filt, hard_rejects, filtered.
  split; [reflexivity|]. split; [exact Hne|]. split; [exact Hloaded|].
  split; [exact Hfiltered|]. split; [exact Hindex|].
  rewrite Hloaded, Hfiltered. intros [= <-]. vm_compute in Hindex. discriminate Hindex.
Qed.

Lemma phases_and_the_loaded_table_witness :
  ({[0 := example_table]} : gmap nat DataFrame) !! 0 = Some example_table
  /\ (forall filtered hard_rejects,
        process_hard_rejects sample_parse_date example_table
        = Some (filtered, hard_rejects) ->
        exists st' df_filt,
          Heap.process_hard_rejects sample_parse_date {[0 := example_table]} 0
          = Some (st', df_filt, hard_rejects)
          /\ df_filt <> 0
          /\ st' !! 0 = Some example_table
          /\ (forall a, is_Some (({[0 := example_table]} : gmap nat DataFrame) !! a) ->
                        st' !! a = ({[0 := example_table]} : gmap nat DataFrame) !! a)
          /\ st' !! df_filt = Some filtered)
  /\ (forall cleaned soft_rejects,
        process_soft_rejects sample_parse_date example_table
        = Some (cleaned, soft_rejects) ->
        Heap.process_soft_rejects sample_parse_date {[0 := example_table]} 0
        = Some (<[0 := cleaned]> {[0 := example_table]}, soft_rejects)).
Proof.
  split; [reflexivity|].
  apply (phases_and_the_loaded_table sample_parse_date {[0 := example_table]} 0
           example_table).
  reflexivity.
Defined.

Lemma zip_codes_five_characters_witness :
  Forall (has_column example_table) nullable_fields.*1
  /\ exists df_filt soft_rejects,
       process_soft_rejects sample_parse_date example_table
       = Some (df_filt, soft_rejects)
       /\ (forall zips v,
             Some v ∈ zip_to_five zips -> exists s, v = Str s /\ String.length s = 5)
       /\ (forall i row' v,
             (i, row') ∈ clean_columns df_filt ->
             row' !! "zip_codes" = Some (Some v) ->
             exists s, v = Str s /\ String.length s = 5)
       /\ (forall k i row,
             NoDup (index example_table) ->
             lacks_column example_table "zip_codes_orig" ->
             example_table !! k = Some (i, row) ->
             row !! "zip_codes" = Some (Some (Str "606010")) ->
             Re.matches MY_REGX.ZIP_CODES "606010" = true
             /\ (i ∉ rejects_get "zip_codes" soft_rejects)
             /\ exists row',
                  df_filt !! k = Some (i, row')
                  /\ row' !! "zip_codes" = Some None
                  /\ (row' !! "zip_codes_orig" = None
                      \/ row' !! "zip_codes_orig" = Some None)).
Proof.
  split; [exact example_has_optional|].
  exact (zip_codes_five_characters sample_parse_date example_table example_has_optional).
Defined.
